(** * Power price simulator: regime scheduler, price integrator, engine

    A shallow embedding of [src/power_simulator] (models.py, regimes.py,
    engine.py).  Python floats are read under exact arithmetic as rationals
    [Q]; [np.sqrt] is an abstract function on them; numpy's global random
    generator is a tape of variates read left to right. *)

From Stdlib Require Import QArith Qabs Lqa Lia List Bool ZArith Arith.
Import ListNotations.
Open Scope Q_scope.

(** ** Comparisons and builtins on numbers *)

Definition Qltb (x y : Q) : bool := negb (Qle_bool y x).
Definition Qgtb (x y : Q) : bool := Qltb y x.
Definition Qgeb (x y : Q) : bool := Qle_bool y x.

(** Python's [max(a, b)] keeps [a] unless [b > a]; [min(a, b)] keeps [a]
    unless [b < a]. *)
Definition py_max (a b : Q) : Q := if Qgtb b a then b else a.
Definition py_min (a b : Q) : Q := if Qltb b a then b else a.

(** [np.clip(x, lo, hi)] is [minimum(maximum(x, lo), hi)]. *)
Definition np_maximum (a b : Q) : Q := if Qltb a b then b else a.
Definition np_minimum (a b : Q) : Q := if Qltb b a then b else a.
Definition np_clip (x lo hi : Q) : Q := np_minimum (np_maximum x lo) hi.

(** ** models.py *)

Inductive VolatilityRegime := LOW | MEDIUM | HIGH.

Record SimulationParameters := mkSimulationParameters {
  max_volatility : Q;
  mean_reversion_strength : Q;
  jump_frequency : Q
}.

(** The dataclass constructor followed by [__post_init__]. *)
Definition SimulationParameters_init (mv mrs jf : Q) : SimulationParameters :=
  {| max_volatility := py_max 0 (py_min 50 mv);
     mean_reversion_strength := py_max (1#100) (py_min (1#2) mrs);
     jump_frequency := py_max 0 (py_min 5 jf) |}.

Definition default_parameters : SimulationParameters :=
  SimulationParameters_init 15 (5#100) 2.

Record PricePoint := mkPricePoint {
  timestamp : Q;
  price : Q;
  pp_regime : VolatilityRegime;
  jump_occurred : bool
}.

Record SimulationState := mkSimulationState {
  current_price : Q;
  elapsed_time : Q;
  regime : VolatilityRegime;
  regime_switch_time : Q;
  price_history : list PricePoint
}.

(** [SimulationState(current_price=c)]: the other fields take their
    dataclass defaults. *)
Definition SimulationState_init (c : Q) : SimulationState :=
  {| current_price := c;
     elapsed_time := 0;
     regime := MEDIUM;
     regime_switch_time := 0;
     price_history := [] |}.

Definition set_elapsed_time (s : SimulationState) (t : Q) : SimulationState :=
  {| current_price := current_price s; elapsed_time := t;
     regime := regime s; regime_switch_time := regime_switch_time s;
     price_history := price_history s |}.

Definition set_regime (s : SimulationState) (r : VolatilityRegime)
  : SimulationState :=
  {| current_price := current_price s; elapsed_time := elapsed_time s;
     regime := r; regime_switch_time := regime_switch_time s;
     price_history := price_history s |}.

Definition set_current_price (s : SimulationState) (c : Q) : SimulationState :=
  {| current_price := c; elapsed_time := elapsed_time s;
     regime := regime s; regime_switch_time := regime_switch_time s;
     price_history := price_history s |}.

(** [price_history.append(pt)] *)
Definition append_history (s : SimulationState) (pt : PricePoint)
  : SimulationState :=
  {| current_price := current_price s; elapsed_time := elapsed_time s;
     regime := regime s; regime_switch_time := regime_switch_time s;
     price_history := price_history s ++ [pt] |}.

(** ** numpy.random

    One cell of the tape is consumed by each library call; the call reads
    the field of its kind.  [normal(loc, scale)] is [loc + scale * g] for a
    standard normal variate [g]; [randint(lo, hi)] lies in [lo, hi). *)

Record Variate := mkVariate {
  uniform : Q;
  gauss : Q;
  integer : nat
}.

Record RandomState := mkRandomState {
  tape : nat -> Variate;
  pos : nat
}.

Definition draw (r : RandomState) : Variate * RandomState :=
  (tape r (pos r), {| tape := tape r; pos := S (pos r) |}).

Definition np_random_random (r : RandomState) : Q * RandomState :=
  let (v, r') := draw r in (uniform v, r').

Definition np_random_normal (loc scale : Q) (r : RandomState)
  : Q * RandomState :=
  let (v, r') := draw r in (loc + scale * gauss v, r').

Definition np_random_randint (lo hi : nat) (r : RandomState)
  : nat * RandomState :=
  let (v, r') := draw r in ((lo + integer v mod (hi - lo))%nat, r').

(** ** regimes.py *)

Record RegimeConfig := mkRegimeConfig {
  volatility_multiplier : Q;
  jump_probability_multiplier : Q
}.

Definition REGIME_CONFIGS (r : VolatilityRegime) : RegimeConfig :=
  match r with
  | LOW => mkRegimeConfig (1#2) 1
  | MEDIUM => mkRegimeConfig 1 (3#2)
  | HIGH => mkRegimeConfig (3#2) 2
  end.

Definition REGIME_SWITCH_INTERVAL : Q := 30.

Record RegimeScheduler := mkRegimeScheduler {
  current_regime : VolatilityRegime;
  last_switch_time : Q
}.

(** [list(VolatilityRegime)], in definition order. *)
Definition regimes : list VolatilityRegime := [LOW; MEDIUM; HIGH].

Definition _select_random_regime (r : RandomState)
  : VolatilityRegime * RandomState :=
  let (idx, r') := np_random_randint 0 (length regimes) r in
  (nth idx regimes LOW, r').

Definition RegimeScheduler_init (r : RandomState)
  : RegimeScheduler * RandomState :=
  let (rg, r') := _select_random_regime r in
  ({| current_regime := rg; last_switch_time := 0 |}, r').

(** [RegimeScheduler.update]: the returned regime, the scheduler after the
    call and the generator after the call. *)
Definition update (sch : RegimeScheduler) (elapsed : Q) (r : RandomState)
  : VolatilityRegime * RegimeScheduler * RandomState :=
  if Qgeb (elapsed - last_switch_time sch) REGIME_SWITCH_INTERVAL then
    let (rg, r') := _select_random_regime r in
    (rg, {| current_regime := rg; last_switch_time := elapsed |}, r')
  else
    (current_regime sch, sch, r).

(** ** engine.py *)

Inductive RuntimeError :=
| SimulationAlreadyCompleted (at_time : Q).

Record PriceSimulator := mkPriceSimulator {
  parameters : SimulationParameters;
  state : SimulationState;
  regime_scheduler : RegimeScheduler
}.

(** What a method call can read and write: the simulator object and
    numpy's global generator. *)
Record World := mkWorld {
  self : PriceSimulator;
  np_random : RandomState
}.

Inductive Outcome (A : Type) :=
| Return (a : A)
| Raise (e : RuntimeError).
Arguments Return {A} a.
Arguments Raise {A} e.

(** Methods: a world in, a value or a raised error and the world out. *)
Definition M (A : Type) : Type := World -> Outcome A * World.

Definition ret {A} (a : A) : M A := fun w => (Return a, w).

Definition raise {A} (e : RuntimeError) : M A := fun w => (Raise e, w).

Definition bind {A B} (c : M A) (k : A -> M B) : M B :=
  fun w =>
    match c w with
    | (Return a, w') => k a w'
    | (Raise e, w') => (Raise e, w')
    end.

Declare Scope method_scope.
Delimit Scope method_scope with method.
Notation "x <- c ;; k" := (bind c (fun x => k))
  (at level 61, c at next level, right associativity) : method_scope.
Notation "c ;; k" := (bind c (fun _ => k))
  (at level 61, right associativity) : method_scope.
Open Scope method_scope.

Definition get_state : M SimulationState :=
  fun w => (Return (state (self w)), w).

Definition get_parameters : M SimulationParameters :=
  fun w => (Return (parameters (self w)), w).

Definition modify_state (f : SimulationState -> SimulationState) : M unit :=
  fun w =>
    (Return tt,
     {| self := {| parameters := parameters (self w);
                   state := f (state (self w));
                   regime_scheduler := regime_scheduler (self w) |};
        np_random := np_random w |}).

Definition call_random {A} (f : RandomState -> A * RandomState) : M A :=
  fun w =>
    let (a, r') := f (np_random w) in
    (Return a, {| self := self w; np_random := r' |}).

(** [self.regime_scheduler.update(elapsed)] *)
Definition regime_scheduler_update (elapsed : Q) : M VolatilityRegime :=
  fun w =>
    let '(rg, sch', r') :=
      update (regime_scheduler (self w)) elapsed (np_random w) in
    (Return rg,
     {| self := {| parameters := parameters (self w);
                   state := state (self w);
                   regime_scheduler := sch' |};
        np_random := r' |}).

Definition LONG_TERM_MEAN : Q := 100.
Definition PRICE_MIN : Q := 1.
Definition PRICE_MAX : Q := 300.
Definition TIME_STEP : Q := 2 # 10.
Definition TOTAL_DURATION : Q := 180.

(** [PriceSimulator(parameters)] *)
Definition PriceSimulator_init (p : SimulationParameters) (r : RandomState)
  : World :=
  let st := SimulationState_init LONG_TERM_MEAN in
  let (sch, r') := RegimeScheduler_init r in
  {| self := {| parameters := p; state := st; regime_scheduler := sch |};
     np_random := r' |}.

Definition reset : M unit :=
  fun w =>
    let st := SimulationState_init LONG_TERM_MEAN in
    let (sch, r') := RegimeScheduler_init (np_random w) in
    (Return tt,
     {| self := {| parameters := parameters (self w);
                   state := st;
                   regime_scheduler := sch |};
        np_random := r' |}).

Definition get_current_state : M SimulationState := get_state.

(** [_sample_jump]: one uniform draw against the per-step probability and,
    only when it falls below, one normal draw for the magnitude. *)
Definition _sample_jump (volatility : Q) : M (bool * Q) :=
  s <- get_state ;;
  p <- get_parameters ;;
  let regime_config := REGIME_CONFIGS (regime s) in
  let jump_prob :=
    jump_frequency p
    * jump_probability_multiplier regime_config
    * (TIME_STEP / 60) in
  u <- call_random np_random_random ;;
  let occurred := Qltb u jump_prob in
  if occurred then
    let jump_std := (1 # 2) * volatility in
    jump_magnitude <- call_random (np_random_normal 0 jump_std) ;;
    ret (occurred, jump_magnitude)
  else
    ret (occurred, 0).

Section WithSqrt.

Variable np_sqrt : Q -> Q.

Definition _sample_normal_noise (volatility dt : Q) : M Q :=
  let std_dev := volatility * np_sqrt dt in
  call_random (np_random_normal 0 std_dev).

(** [generate_next_price]: reads the state, draws, returns the clamped
    sum; the jump's own flag is dropped. *)
Definition generate_next_price (dt : Q) : M Q :=
  s <- get_state ;;
  p <- get_parameters ;;
  let regime_config := REGIME_CONFIGS (regime s) in
  let effective_volatility :=
    max_volatility p * volatility_multiplier regime_config in
  let mean_reversion :=
    (LONG_TERM_MEAN - current_price s) * mean_reversion_strength p * dt in
  volatility_shock <- _sample_normal_noise effective_volatility dt ;;
  jump <- _sample_jump effective_volatility ;;
  let new_price :=
    current_price s + mean_reversion + volatility_shock + snd jump in
  ret (np_clip new_price PRICE_MIN PRICE_MAX).

(** [run_step].  The source also computes a local [effective_volatility]
    before the flag draw and never reads it. *)
Definition run_step : M PricePoint :=
  s <- get_state ;;
  if Qgtb (elapsed_time s) TOTAL_DURATION then
    raise (SimulationAlreadyCompleted (elapsed_time s))
  else
    modify_state (fun s => set_elapsed_time s (elapsed_time s + TIME_STEP)) ;;
    s <- get_state ;;
    rg <- regime_scheduler_update (elapsed_time s) ;;
    modify_state (fun s => set_regime s rg) ;;
    new_price <- generate_next_price TIME_STEP ;;
    modify_state (fun s => set_current_price s new_price) ;;
    s <- get_state ;;
    p <- get_parameters ;;
    let regime_config := REGIME_CONFIGS (regime s) in
    let jump_prob :=
      jump_frequency p
      * jump_probability_multiplier regime_config
      * (TIME_STEP / 60) in
    u <- call_random np_random_random ;;
    let occurred := Qltb u jump_prob in
    let price_point :=
      {| timestamp := elapsed_time s;
         price := current_price s;
         pp_regime := regime s;
         jump_occurred := occurred |} in
    modify_state (fun s => append_history s price_point) ;;
    ret price_point.

(** [for _ in range(n): run_step()], collecting the returned points; a
    raised error ends the loop. *)
Fixpoint run_steps (n : nat) : M (list PricePoint) :=
  match n with
  | O => ret []
  | S n' =>
      pt <- run_step ;;
      pts <- run_steps n' ;;
      ret (pt :: pts)
  end.

(** One call by a caller that catches the error and carries on. *)
Definition run_step_caught (w : World) : World := snd (run_step w).

(** [n] successive calls of [generate_next_price()] on the same object. *)
Fixpoint generate_prices (n : nat) : M (list Q) :=
  match n with
  | O => ret []
  | S n' =>
      x <- generate_next_price TIME_STEP ;;
      xs <- generate_prices n' ;;
      ret (x :: xs)
  end.

End WithSqrt.

(** A rational square root for running the model: Newton's iteration. *)
Fixpoint newton_sqrt (fuel : nat) (x y : Q) : Q :=
  match fuel with
  | O => y
  | S f => newton_sqrt f x (Qred ((y + x / y) / 2))
  end.

Definition sqrt6 (x : Q) : Q :=
  if Qle_bool x 0 then 0 else newton_sqrt 6 x 1.

Definition tape_of (l : list Variate) : nat -> Variate :=
  fun i => nth i l (mkVariate 0 0 0).

Definition seeded (l : list Variate) : RandomState :=
  {| tape := tape_of l; pos := 0 |}.

(** * Specification vocabulary *)

Definition in_bounds (x : Q) : Prop := PRICE_MIN <= x <= PRICE_MAX.

(** What a returning call of [run_step] has done to the world. *)
Record step_post (w : World) (pt : PricePoint) (w' : World) : Prop := {
  sp_elapsed :
    elapsed_time (state (self w')) = elapsed_time (state (self w)) + TIME_STEP;
  sp_history :
    price_history (state (self w')) = price_history (state (self w)) ++ [pt];
  sp_timestamp : timestamp pt = elapsed_time (state (self w'));
  sp_price : price pt = current_price (state (self w'));
  sp_regime : pp_regime pt = regime (state (self w'));
  sp_sched : regime (state (self w')) = current_regime (regime_scheduler (self w'));
  sp_bounds : in_bounds (price pt);
  sp_parameters : parameters (self w') = parameters (self w);
  sp_switch_time :
    regime_switch_time (state (self w')) = regime_switch_time (state (self w));
  sp_update :
    fst (update (regime_scheduler (self w))
           (elapsed_time (state (self w)) + TIME_STEP) (np_random w))
    = (pp_regime pt, regime_scheduler (self w'))
}.

(** The clock after [n] steps from zero. *)
Definition steps_time (n : nat) : Q := inject_Z (Z.of_nat n) * TIME_STEP.

Definition point_in_bounds (pt : PricePoint) : Prop := in_bounds (price pt).

(** The state right after construction or a reset. *)
Definition fresh (w : World) : Prop :=
  state (self w) = SimulationState_init LONG_TERM_MEAN.

(** Tapes and worlds on which the model is run. *)
Definition sample_tape : list Variate :=
  [ mkVariate 0 0 2;
    mkVariate (1 # 2) (1 # 3) 0;
    mkVariate (1 # 2) 0 0;
    mkVariate 0 (-1 # 4) 1;
    mkVariate (3 # 4) (1 # 5) 0;
    mkVariate (1 # 200) 2 0;
    mkVariate (9 # 10) (-3) 0;
    mkVariate (1 # 3) 0 0 ].

Definition sample_world : World :=
  PriceSimulator_init default_parameters (seeded sample_tape).

(** A simulator whose clock is already past the horizon. *)
Definition completed_world : World :=
  snd (modify_state (fun s => set_elapsed_time s (1802 # 10)) sample_world).

(** The value a method returned, when it did return. *)
Definition returned {A} (d : A) (o : Outcome A) : A :=
  match o with
  | Return a => a
  | Raise _ => d
  end.

(** [n] calls of [run_step], errors caught by the caller. *)
Definition after_calls (np_sqrt : Q -> Q) (n : nat) (w : World) : World :=
  Nat.iter n (run_step_caught np_sqrt) w.

(** What [N] returning calls leave behind: the clock at [N * 0.2], a
    history of [N] entries, namely the returned points in order, the [k]th
    stamped [(k + 1) * 0.2]. *)
Definition counted (N : nat) (pts : list PricePoint) (w' : World) : Prop :=
  elapsed_time (state (self w')) == inject_Z (Z.of_nat N) * TIME_STEP
  /\ length (price_history (state (self w'))) = N
  /\ price_history (state (self w')) = pts
  /\ (forall k pt, nth_error pts k = Some pt ->
        timestamp pt == inject_Z (Z.of_nat (S k)) * TIME_STEP).

(** The noiseless mean-reversion scenario: parameters [(0, 0.2, 0)], then
    [sim.state.current_price = 50]. *)
Definition mean_reversion_scenario (r : RandomState) : World :=
  snd (modify_state (fun s => set_current_price s 50)
         (PriceSimulator_init (SimulationParameters_init 0 (2 # 10) 0) r)).

(** Every value is strictly closer to [target] than the value before it. *)
Fixpoint strictly_approaches (target : Q) (xs : list Q) : bool :=
  match xs with
  | x :: (y :: _) as rest =>
      Qltb (Qabs (target - y)) (Qabs (target - x))
      && strictly_approaches target rest
  | _ => true
  end.

(** The world in which [run_step] calls [generate_next_price]: clock
    advanced, regime updated. *)
Definition price_call_world (w : World) : World :=
  snd ((modify_state (fun s => set_elapsed_time s (elapsed_time s + TIME_STEP)) ;;
        s <- get_state ;;
        rg <- regime_scheduler_update (elapsed_time s) ;;
        modify_state (fun s => set_regime s rg)) w).

Definition effective_volatility_of (w : World) : Q :=
  max_volatility (parameters (self w))
  * volatility_multiplier (REGIME_CONFIGS (regime (state (self w)))).

Definition jump_prob_of (w : World) : Q :=
  jump_frequency (parameters (self w))
  * jump_probability_multiplier (REGIME_CONFIGS (regime (state (self w))))
  * (TIME_STEP / 60).

(** The shock drawn by the step's price computation, and the world in which
    that computation then calls [_sample_jump]. *)
Definition price_shock (np_sqrt : Q -> Q) (w : World) : Outcome Q * World :=
  _sample_normal_noise np_sqrt
    (effective_volatility_of (price_call_world w)) TIME_STEP
    (price_call_world w).

(** The [_sample_jump] call of the step's price computation. *)
Definition price_jump (np_sqrt : Q -> Q) (w : World)
  : Outcome (bool * Q) * World :=
  _sample_jump (effective_volatility_of (price_call_world w))
    (snd (price_shock np_sqrt w)).

Definition uniforms_in_range (r : RandomState) : Prop :=
  forall i, 0 <= uniform (tape r i) < 1.

(** How the price of a returned point and its flag come about: the price
    computation drew [shock], then its own jump [(occ, mag)] from the tape
    cell at the generator position of [wb]; the flag compares the cell at
    the later position of [wc] with the same probability. *)
Definition two_draws (np_sqrt : Q -> Q) (w : World) (pt : PricePoint) : Prop :=
  exists shock wb occ mag wc,
    price_shock np_sqrt w = (Return shock, wb)
    /\ price_jump np_sqrt w = (Return (occ, mag), wc)
    /\ price pt
       = np_clip
           (current_price (state (self w))
            + (LONG_TERM_MEAN - current_price (state (self w)))
              * mean_reversion_strength (parameters (self w)) * TIME_STEP
            + shock + mag)
           PRICE_MIN PRICE_MAX
    /\ occ = Qltb (uniform (tape (np_random w) (pos (np_random wb))))
                  (jump_prob_of (price_call_world w))
    /\ jump_occurred pt
       = Qltb (uniform (tape (np_random w) (pos (np_random wc))))
              (jump_prob_of (price_call_world w))
    /\ (pos (np_random wb) < pos (np_random wc))%nat
    /\ (occ = false -> mag = 0).

(** On a fresh simulator: no jump in the price, then a flag draw below the
    jump probability. *)
Definition flag_only_tape : list Variate :=
  [ mkVariate 0 0 0; mkVariate 0 0 0; mkVariate (1 # 2) 0 0; mkVariate 0 0 0 ].

(** On a fresh simulator: a jump of unit standard-normal magnitude in the
    price, then a flag draw above the jump probability. *)
Definition jump_only_tape : list Variate :=
  [ mkVariate 0 0 0; mkVariate 0 0 0; mkVariate 0 0 0; mkVariate 0 1 0;
    mkVariate (1 # 2) 0 0 ].

(** ** Further code of regimes.py and ui/app.py *)

(** [RegimeScheduler.get_regime] *)
Definition get_regime (sch : RegimeScheduler) : VolatilityRegime :=
  current_regime sch.

(** [RegimeScheduler.get_config(regime=None)] *)
Definition get_config (sch : RegimeScheduler) (rg : option VolatilityRegime)
  : RegimeConfig :=
  match rg with
  | None => REGIME_CONFIGS (current_regime sch)
  | Some r => REGIME_CONFIGS r
  end.

(** The clamped ranges of [SimulationParameters]. *)
Definition in_ranges (p : SimulationParameters) : Prop :=
  0 <= max_volatility p <= 50
  /\ (1 # 100) <= mean_reversion_strength p <= (1 # 2)
  /\ 0 <= jump_frequency p <= 5.

(** ui/app.py, [main]: [progress = min(elapsed / 180.0, 1.0)]. *)
Definition progress (elapsed : Q) : Q := py_min (elapsed / 180) 1.

(** ui/app.py, [main]: [sum(1 for p in price_history if p.jump_occurred)]. *)
Definition jump_count (s : SimulationState) : nat :=
  length (filter jump_occurred (price_history s)).

(** ui/app.py, [main]: the real-time loop block run on every rerun of the
    script, given [st.session_state.is_running]; the value is the flag after
    the block.  Sleeping and the rerun request are left out. *)
Definition simulation_loop (np_sqrt : Q -> Q) (is_running : bool) : M bool :=
  if is_running then
    sim_state <- get_current_state ;;
    if Qltb (elapsed_time sim_state) 180 then
      run_step np_sqrt ;;
      ret true
    else
      ret false
  else
    ret is_running.

(** [n] reruns of the script, no button pressed in between. *)
Fixpoint reruns (np_sqrt : Q -> Q) (n : nat) (is_running : bool) : M bool :=
  match n with
  | O => ret is_running
  | S n' =>
      b <- simulation_loop np_sqrt is_running ;;
      reruns np_sqrt n' b
  end.

(** The scheduler's switch time after [n] steps from a fresh simulator. *)
Definition switch_time (n : nat) : Q :=
  inject_Z (30 * (Z.of_nat n / 150)).

(** A tape whose every cell is [v]. *)
Definition constant_tape (v : Variate) : RandomState :=
  {| tape := fun _ => v; pos := 0 |}.

(** * Properties *)

(** ** Comparisons *)

Lemma Qltb_lt (x y : Q) : Qltb x y = true <-> x < y.
Proof.
  unfold Qltb. rewrite negb_true_iff, <- not_true_iff_false, Qle_bool_iff.
  split; [apply Qnot_le_lt | apply Qlt_not_le].
Qed.

Lemma Qltb_ge (x y : Q) : Qltb x y = false <-> y <= x.
Proof.
  unfold Qltb. rewrite negb_false_iff. apply Qle_bool_iff.
Qed.

Lemma Qgtb_gt (x y : Q) : Qgtb x y = true <-> y < x.
Proof. apply Qltb_lt. Qed.

Lemma Qgtb_le (x y : Q) : Qgtb x y = false <-> x <= y.
Proof. apply Qltb_ge. Qed.

Lemma Qgeb_ge (x y : Q) : Qgeb x y = true <-> y <= x.
Proof. apply Qle_bool_iff. Qed.

Lemma Qgeb_lt (x y : Q) : Qgeb x y = false <-> x < y.
Proof.
  unfold Qgeb. rewrite <- not_true_iff_false, Qle_bool_iff.
  split; [apply Qnot_le_lt | apply Qlt_not_le].
Qed.

(** ** The clamp *)

Lemma np_clip_bounds (x lo hi : Q) :
  lo <= hi -> lo <= np_clip x lo hi <= hi.
Proof.
  intros Hlh. unfold np_clip, np_minimum, np_maximum.
  destruct (Qltb x lo) eqn:E1.
  - destruct (Qltb hi lo) eqn:E2.
    + apply Qltb_lt in E2. lra.
    + lra.
  - apply Qltb_ge in E1.
    destruct (Qltb hi x) eqn:E2.
    + lra.
    + apply Qltb_ge in E2. lra.
Qed.

Lemma np_clip_inside (x y lo hi : Q) :
  x == y -> lo <= y <= hi -> np_clip x lo hi == y.
Proof.
  intros Hxy [Hl Hh]. unfold np_clip, np_minimum, np_maximum.
  destruct (Qltb x lo) eqn:E1.
  - apply Qltb_lt in E1. lra.
  - destruct (Qltb hi x) eqn:E2.
    + apply Qltb_lt in E2. lra.
    + exact Hxy.
Qed.

(** ** The regime draw *)

Lemma select_random_regime_eq (r : RandomState) :
  _select_random_regime r =
  (nth (integer (tape r (pos r)) mod 3) regimes LOW,
   {| tape := tape r; pos := S (pos r) |}).
Proof. reflexivity. Qed.

Lemma update_returns_current (sch : RegimeScheduler) (t : Q) (r : RandomState) :
  fst (fst (update sch t r)) = current_regime (snd (fst (update sch t r))).
Proof.
  unfold update. destruct (Qgeb _ _); [| reflexivity].
  destruct (_select_random_regime r). reflexivity.
Qed.

Section EngineFacts.

Variable np_sqrt : Q -> Q.

(** ** [generate_next_price] *)

(** The call always returns, leaves the simulator object as it was and
    advances only the generator; its value is clamped. *)
Lemma generate_next_price_returns (dt : Q) (w : World) :
  exists x r',
    generate_next_price np_sqrt dt w
      = (Return x, {| self := self w; np_random := r' |})
    /\ in_bounds x.
Proof.
  unfold generate_next_price, _sample_normal_noise, _sample_jump,
    bind, get_state, get_parameters, call_random, ret,
    np_random_random, np_random_normal, draw.
  cbn.
  match goal with |- context [if ?c then _ else _] => destruct c end; cbn;
    eexists; eexists; (split; [reflexivity | apply np_clip_bounds; unfold PRICE_MIN, PRICE_MAX; lra]).
Qed.

(** ** [run_step] *)

Lemma run_step_cases (w : World) :
  (TOTAL_DURATION < elapsed_time (state (self w))
   /\ run_step np_sqrt w
      = (Raise (SimulationAlreadyCompleted (elapsed_time (state (self w)))), w))
  \/
  (elapsed_time (state (self w)) <= TOTAL_DURATION
   /\ exists pt w', run_step np_sqrt w = (Return pt, w') /\ step_post w pt w').
Proof.
  destruct (Qgtb (elapsed_time (state (self w))) TOTAL_DURATION) eqn:Hg.
  - left. split; [apply Qgtb_gt; exact Hg |].
    unfold run_step, bind, get_state. rewrite Hg. reflexivity.
  - right. split; [apply Qgtb_le; exact Hg |].
    unfold run_step, bind, modify_state, get_state, get_parameters,
      regime_scheduler_update, call_random, ret, np_random_random, draw.
    rewrite Hg.
    cbn -[generate_next_price update].
    destruct (update (regime_scheduler (self w))
                (elapsed_time (state (self w)) + TIME_STEP) (np_random w))
      as [[rg sch'] r'] eqn:Hu.
    cbn -[generate_next_price].
    match goal with
    | |- context [generate_next_price np_sqrt TIME_STEP ?w2] =>
        destruct (generate_next_price_returns TIME_STEP w2)
          as (x & r2 & Hx & Hb); rewrite Hx
    end.
    cbn.
    eexists. eexists. split; [reflexivity |].
    constructor; cbn; try reflexivity; try assumption.
    + pose proof (update_returns_current (regime_scheduler (self w))
        (elapsed_time (state (self w)) + TIME_STEP) (np_random w)) as Hc.
      rewrite Hu in Hc. exact Hc.
    + rewrite Hu. reflexivity.
Qed.

Lemma run_step_raise_inv (w : World) (e : RuntimeError) (w' : World) :
  run_step np_sqrt w = (Raise e, w') ->
  TOTAL_DURATION < elapsed_time (state (self w))
  /\ e = SimulationAlreadyCompleted (elapsed_time (state (self w)))
  /\ w' = w.
Proof.
  intros H.
  destruct (run_step_cases w) as [[Hgt Hr] | [_ (pt & w1 & Hr & _)]];
    rewrite Hr in H; inversion H; subst; auto.
Qed.

Lemma run_step_return_inv (w : World) (pt : PricePoint) (w' : World) :
  run_step np_sqrt w = (Return pt, w') ->
  elapsed_time (state (self w)) <= TOTAL_DURATION /\ step_post w pt w'.
Proof.
  intros H.
  destruct (run_step_cases w) as [[_ Hr] | [Hle (pt1 & w1 & Hr & Hp)]];
    rewrite Hr in H; inversion H; subst; auto.
Qed.

(** ** Runs of several steps *)

Lemma steps_time_succ (n : nat) : steps_time (S n) == steps_time n + TIME_STEP.
Proof.
  unfold steps_time. rewrite Nat2Z.inj_succ. unfold Z.succ.
  rewrite inject_Z_plus. ring.
Qed.

Lemma steps_time_nonneg (n : nat) : 0 <= steps_time n.
Proof.
  unfold steps_time, TIME_STEP.
  assert (0 <= inject_Z (Z.of_nat n)).
  { change 0 with (inject_Z 0). rewrite <- Zle_Qle. lia. }
  nra.
Qed.

Lemma steps_time_mono (n m : nat) :
  (n <= m)%nat -> steps_time n <= steps_time m.
Proof.
  intros H. unfold steps_time, TIME_STEP.
  assert (inject_Z (Z.of_nat n) <= inject_Z (Z.of_nat m)).
  { rewrite <- Zle_Qle. lia. }
  lra.
Qed.

Lemma run_steps_return_inv (n : nat) :
  forall (w : World) (pts : list PricePoint) (w' : World),
    run_steps np_sqrt n w = (Return pts, w') ->
    length pts = n
    /\ price_history (state (self w')) = price_history (state (self w)) ++ pts
    /\ elapsed_time (state (self w'))
       == elapsed_time (state (self w)) + steps_time n
    /\ Forall point_in_bounds pts
    /\ (forall k pt, nth_error pts k = Some pt ->
          timestamp pt == elapsed_time (state (self w)) + steps_time (S k))
    /\ (in_bounds (current_price (state (self w))) ->
        in_bounds (current_price (state (self w')))).
Proof.
  induction n as [| n IH]; intros w pts w' H.
  - cbn in H. inversion H; subst. cbn.
    split; [| split; [| split; [| split; [| split]]]]; auto.
    + now rewrite app_nil_r.
    + unfold steps_time. cbn. ring.
    + intros [|k] pt Hk; discriminate.
  - cbn [run_steps] in H. unfold bind at 1 in H.
    destruct (run_step np_sqrt w) as [[pt | e] w1] eqn:Hs; [| discriminate].
    unfold bind at 1 in H.
    destruct (run_steps np_sqrt n w1) as [[pts1 | e] w2] eqn:Hr; [| discriminate].
    unfold ret in H. inversion H; subst. clear H.
    apply run_step_return_inv in Hs. destruct Hs as [_ Hp].
    apply IH in Hr. destruct Hr as (Hlen & Hh & Ht & Hb & Hts & Hc).
    split; [| split; [| split; [| split; [| split]]]].
    + cbn. now rewrite Hlen.
    + rewrite Hh, (sp_history _ _ _ Hp), <- app_assoc. reflexivity.
    + rewrite Ht, (sp_elapsed _ _ _ Hp), steps_time_succ. ring.
    + constructor; [exact (sp_bounds _ _ _ Hp) | exact Hb].
    + intros [| k] q Hk; cbn in Hk.
      * inversion Hk; subst.
        rewrite (sp_timestamp _ _ _ Hp), (sp_elapsed _ _ _ Hp).
        unfold steps_time. cbn. ring.
      * apply Hts in Hk. rewrite Hk, (sp_elapsed _ _ _ Hp).
        rewrite (steps_time_succ (S k)). ring.
    + intros _. apply Hc. rewrite <- (sp_price _ _ _ Hp).
      exact (sp_bounds _ _ _ Hp).
Qed.

Lemma run_steps_returns (n : nat) :
  forall w : World,
    elapsed_time (state (self w)) + steps_time n <= TOTAL_DURATION + TIME_STEP ->
    exists pts w', run_steps np_sqrt n w = (Return pts, w').
Proof.
  induction n as [| n IH]; intros w H.
  - exists [], w. reflexivity.
  - pose proof (steps_time_nonneg n) as Hn.
    rewrite steps_time_succ in H.
    destruct (run_step_cases w) as [[Hgt _] | [_ (pt & w1 & Hs & Hp)]];
      [lra |].
    destruct (IH w1) as (pts & w2 & Hr).
    { rewrite (sp_elapsed _ _ _ Hp). lra. }
    exists (pt :: pts), w2.
    cbn [run_steps]. unfold bind. rewrite Hs, Hr. reflexivity.
Qed.

Lemma PriceSimulator_init_fresh (p : SimulationParameters) (r : RandomState) :
  fresh (PriceSimulator_init p r).
Proof. reflexivity. Qed.

Lemma reset_fresh (w : World) : fresh (snd (reset w)).
Proof. reflexivity. Qed.

End EngineFacts.

(** ** Bounds, clock, completion, reset and preview *)

(** C1.  From a newly constructed simulator, whatever its parameters (so in
    particular for parameters inside the clamped ranges) and whatever the
    random tape, each of the first [N] calls of [run_step], [1 <= N <= 900],
    returns; the points recorded in [price_history] are the returned ones,
    every one of them has its price in [[PRICE_MIN, PRICE_MAX]] = [[1, 300]],
    and so has [current_price] after the [N]th call. *)
Theorem prices_within_bounds
  (np_sqrt : Q -> Q) (p : SimulationParameters) (r : RandomState) (N : nat) :
  (1 <= N <= 900)%nat ->
  exists pts w',
    run_steps np_sqrt N (PriceSimulator_init p r) = (Return pts, w')
    /\ price_history (state (self w')) = pts
    /\ Forall (fun pt => 1 <= price pt <= 300) pts
    /\ 1 <= current_price (state (self w')) <= 300.
Proof.
  intros [H1 H900].
  destruct (run_steps_returns np_sqrt N (PriceSimulator_init p r))
    as (pts & w' & Hr).
  { pose proof (steps_time_mono N 900 H900) as Hm.
    assert (H180 : steps_time 900 == 180) by (vm_compute; reflexivity).
    change (elapsed_time (state (self (PriceSimulator_init p r)))) with 0.
    unfold TOTAL_DURATION, TIME_STEP. lra. }
  exists pts, w'. split; [exact Hr |].
  apply run_steps_return_inv in Hr.
  destruct Hr as (_ & Hh & _ & Hb & _ & Hc).
  split; [exact Hh |]. split; [exact Hb |].
  apply Hc. cbn. unfold in_bounds, PRICE_MIN, PRICE_MAX, LONG_TERM_MEAN. lra.
Qed.

Lemma prices_within_bounds_witness :
  exists pts w',
    run_steps sqrt6 3 sample_world = (Return pts, w')
    /\ price_history (state (self w')) = pts
    /\ Forall (fun pt => 1 <= price pt <= 300) pts
    /\ 1 <= current_price (state (self w')) <= 300.
Proof.
  apply (prices_within_bounds sqrt6 default_parameters (seeded sample_tape) 3).
  lia.
Defined.

(** C2.  When [N] calls of [run_step] in a row all return, starting from a
    fresh state (as left by construction or by [reset]), [elapsed_time] is
    [N * 0.2] and [price_history] has exactly [N] entries: each call added
    [TIME_STEP] to the clock and appended the one point it returned.  Under
    exact arithmetic the first 901 calls do all return. *)
Theorem elapsed_time_and_history_after_steps
  (np_sqrt : Q -> Q) (N : nat) (w : World) :
  fresh w ->
  ((N <= 901)%nat ->
   exists pts w', run_steps np_sqrt N w = (Return pts, w'))
  /\ (forall pts w',
        run_steps np_sqrt N w = (Return pts, w') -> counted N pts w')
  /\ (forall w1 pt w2,
        run_step np_sqrt w1 = (Return pt, w2) ->
        elapsed_time (state (self w2))
          = elapsed_time (state (self w1)) + TIME_STEP
        /\ price_history (state (self w2))
           = price_history (state (self w1)) ++ [pt]).
Proof.
  intros Hf. unfold fresh in Hf. split; [| split].
  - intros HN. apply run_steps_returns. rewrite Hf.
    pose proof (steps_time_mono N 901 HN) as Hm.
    assert (H901 : steps_time 901 == 1802 # 10) by (vm_compute; reflexivity).
    change (elapsed_time (SimulationState_init LONG_TERM_MEAN)) with 0.
    unfold TOTAL_DURATION, TIME_STEP. lra.
  - intros pts w' Hr. apply run_steps_return_inv in Hr.
    destruct Hr as (Hlen & Hh & Ht & _ & Hts & _).
    rewrite Hf in Hh, Ht, Hts. cbn in Hh, Ht, Hts.
    split; [| split; [| split]].
    + rewrite Ht. unfold steps_time. ring.
    + rewrite Hh. exact Hlen.
    + exact Hh.
    + intros k pt Hk. rewrite (Hts k pt Hk). unfold steps_time. ring.
  - intros w1 pt w2 Hs. apply run_step_return_inv in Hs.
    destruct Hs as [_ Hp].
    split; [exact (sp_elapsed _ _ _ Hp) | exact (sp_history _ _ _ Hp)].
Qed.

Lemma elapsed_time_and_history_after_steps_witness :
  exists pts w',
    run_steps sqrt6 3 sample_world = (Return pts, w') /\ counted 3 pts w'.
Proof.
  destruct (elapsed_time_and_history_after_steps sqrt6 3 sample_world)
    as (Hex & Hpost & _).
  - reflexivity.
  - destruct Hex as (pts & w' & Hr); [lia |].
    exists pts, w'. split; [exact Hr | exact (Hpost pts w' Hr)].
Defined.

(** C3.  [run_step] raises the already-completed error exactly when
    [elapsed_time > TOTAL_DURATION] at the call, and returns a point exactly
    when [elapsed_time <= TOTAL_DURATION]; once the clock is past the
    horizon, every later call raises it again. *)
Theorem run_step_raises_iff_complete (np_sqrt : Q -> Q) (w : World) :
  (run_step np_sqrt w
     = (Raise (SimulationAlreadyCompleted (elapsed_time (state (self w)))), w)
   <-> TOTAL_DURATION < elapsed_time (state (self w)))
  /\ ((exists e w', run_step np_sqrt w = (Raise e, w'))
      <-> TOTAL_DURATION < elapsed_time (state (self w)))
  /\ ((exists pt w', run_step np_sqrt w = (Return pt, w'))
      <-> elapsed_time (state (self w)) <= TOTAL_DURATION)
  /\ (TOTAL_DURATION < elapsed_time (state (self w)) ->
      forall n, exists e,
        fst (run_step np_sqrt (after_calls np_sqrt n w)) = Raise e).
Proof.
  assert (Hraise : forall v, TOTAL_DURATION < elapsed_time (state (self v)) ->
            run_step np_sqrt v
            = (Raise (SimulationAlreadyCompleted
                        (elapsed_time (state (self v)))), v)).
  { intros v Hv.
    destruct (run_step_cases np_sqrt v) as [[_ Hr] | [Hle _]];
      [exact Hr | lra]. }
  split; [| split; [| split]].
  - split; [| apply Hraise].
    intros Hr. apply run_step_raise_inv in Hr. tauto.
  - split.
    + intros (e & w' & Hr). apply run_step_raise_inv in Hr. tauto.
    + intros Hgt. eexists. eexists. apply Hraise. exact Hgt.
  - split.
    + intros (pt & w' & Hr). apply run_step_return_inv in Hr. tauto.
    + intros Hle.
      destruct (run_step_cases np_sqrt w) as [[Hgt _] | [_ (pt & w' & Hr & _)]];
        [lra |].
      exists pt, w'. exact Hr.
  - intros Hgt n.
    assert (Hn : after_calls np_sqrt n w = w).
    { induction n as [| n IH]; [reflexivity |].
      change (after_calls np_sqrt (S n) w)
        with (run_step_caught np_sqrt (after_calls np_sqrt n w)).
      rewrite IH. unfold run_step_caught. rewrite (Hraise w Hgt). reflexivity. }
    rewrite Hn, (Hraise w Hgt). eexists. reflexivity.
Qed.

Lemma run_step_raises_iff_complete_witness :
  exists e,
    fst (run_step sqrt6 (after_calls sqrt6 2 completed_world)) = Raise e.
Proof.
  apply (run_step_raises_iff_complete sqrt6 completed_world).
  reflexivity.
Defined.

(** C10.  A call of [run_step] that raises has changed nothing: the clock
    was past the horizon and the world after the call is the world before
    it, so [elapsed_time], [current_price], [regime] and [price_history] are
    what they were. *)
Theorem run_step_raise_leaves_state
  (np_sqrt : Q -> Q) (w : World) (e : RuntimeError) (w' : World) :
  run_step np_sqrt w = (Raise e, w') ->
  TOTAL_DURATION < elapsed_time (state (self w))
  /\ w' = w
  /\ elapsed_time (state (self w')) = elapsed_time (state (self w))
  /\ current_price (state (self w')) = current_price (state (self w))
  /\ regime (state (self w')) = regime (state (self w))
  /\ price_history (state (self w')) = price_history (state (self w)).
Proof.
  intros H. apply run_step_raise_inv in H. destruct H as (Hgt & _ & ->).
  repeat split; auto.
Qed.

Lemma run_step_raise_leaves_state_witness :
  snd (run_step sqrt6 completed_world) = completed_world.
Proof.
  apply (run_step_raise_leaves_state sqrt6 completed_world
           (SimulationAlreadyCompleted (1802 # 10))
           (snd (run_step sqrt6 completed_world))).
  vm_compute. reflexivity.
Defined.

(** C5.  After any number of [run_step] calls, raising ones included,
    [reset] returns without error and the state then read is the state of
    construction: [current_price] 100, [elapsed_time] 0, empty history. *)
Theorem reset_restores_construction_state
  (np_sqrt : Q -> Q) (p : SimulationParameters) (r : RandomState) (n : nat) :
  fst (reset (after_calls np_sqrt n (PriceSimulator_init p r))) = Return tt
  /\ fst (get_current_state
            (snd (reset (after_calls np_sqrt n (PriceSimulator_init p r)))))
     = Return (state (self (PriceSimulator_init p r)))
  /\ fst (get_current_state
            (snd (reset (after_calls np_sqrt n (PriceSimulator_init p r)))))
     = Return {| current_price := 100;
                 elapsed_time := 0;
                 regime := MEDIUM;
                 regime_switch_time := 0;
                 price_history := [] |}.
Proof.
  repeat split.
Qed.

(** C6.  [generate_next_price] returns a value and leaves the simulator
    object untouched for every world and every [dt]: [elapsed_time],
    [current_price], [regime], [regime_switch_time] and [price_history]
    after the call are those before it. *)
Theorem generate_next_price_preserves_state
  (np_sqrt : Q -> Q) (dt : Q) (w : World) :
  exists x w',
    generate_next_price np_sqrt dt w = (Return x, w')
    /\ self w' = self w
    /\ elapsed_time (state (self w')) = elapsed_time (state (self w))
    /\ current_price (state (self w')) = current_price (state (self w))
    /\ regime (state (self w')) = regime (state (self w))
    /\ regime_switch_time (state (self w'))
       = regime_switch_time (state (self w))
    /\ price_history (state (self w')) = price_history (state (self w)).
Proof.
  destruct (generate_next_price_returns np_sqrt dt w) as (x & r' & Hx & _).
  exists x. eexists. split; [exact Hx |]. cbn. repeat split.
Qed.

(** C4.  [update] switches exactly when [elapsed - last_switch_time >= 30]:
    it then takes the regime at the index drawn by [randint(0, 3)] from
    [LOW, MEDIUM, HIGH] (each of the three can come out) and sets
    [last_switch_time] to [elapsed]; otherwise it returns the current regime
    and leaves scheduler and generator alone.  Hence, for two consecutive
    returning steps, the second point's regime differs from the first's only
    if the interval had elapsed, and with less than 30 elapsed it is the
    same regime and the same scheduler. *)
Theorem regime_switches_only_after_interval (np_sqrt : Q -> Q) :
  (forall sch t r,
     REGIME_SWITCH_INTERVAL <= t - last_switch_time sch ->
     exists idx,
       (idx < 3)%nat
       /\ np_random_randint 0 (length regimes) r
          = (idx, {| tape := tape r; pos := S (pos r) |})
       /\ nth_error regimes idx = Some (nth idx regimes LOW)
       /\ update sch t r
          = (nth idx regimes LOW,
             {| current_regime := nth idx regimes LOW; last_switch_time := t |},
             {| tape := tape r; pos := S (pos r) |}))
  /\ (forall sch t rg,
        REGIME_SWITCH_INTERVAL <= t - last_switch_time sch ->
        exists r, fst (fst (update sch t r)) = rg)
  /\ (forall sch t r,
        t - last_switch_time sch < REGIME_SWITCH_INTERVAL ->
        update sch t r = (current_regime sch, sch, r))
  /\ (forall w1 pt1 w2 pt2 w3,
        run_step np_sqrt w1 = (Return pt1, w2) ->
        run_step np_sqrt w2 = (Return pt2, w3) ->
        (pp_regime pt2 <> pp_regime pt1 ->
         REGIME_SWITCH_INTERVAL
           <= timestamp pt2 - last_switch_time (regime_scheduler (self w2)))
        /\ (timestamp pt2 - last_switch_time (regime_scheduler (self w2))
              < REGIME_SWITCH_INTERVAL ->
            pp_regime pt2 = pp_regime pt1
            /\ regime_scheduler (self w3) = regime_scheduler (self w2))).
Proof.
  assert (Hkeep : forall sch t r,
            t - last_switch_time sch < REGIME_SWITCH_INTERVAL ->
            update sch t r = (current_regime sch, sch, r)).
  { intros sch t r H. unfold update.
    apply Qgeb_lt in H. rewrite H. reflexivity. }
  split; [| split; [| split]].
  - intros sch t r H. apply Qgeb_ge in H.
    exists (integer (tape r (pos r)) mod 3)%nat.
    assert (Hlt : (integer (tape r (pos r)) mod 3 < 3)%nat)
      by (apply Nat.mod_upper_bound; discriminate).
    split; [exact Hlt |]. split; [reflexivity |]. split.
    + destruct (integer (tape r (pos r)) mod 3)%nat as [| [| [| k]]];
        try reflexivity; lia.
    + unfold update. rewrite H. reflexivity.
  - intros sch t rg H. apply Qgeb_ge in H.
    exists {| tape := fun _ =>
                mkVariate 0 0
                  match rg with LOW => 0 | MEDIUM => 1 | HIGH => 2 end;
              pos := 0 |}.
    unfold update. rewrite H. destruct rg; reflexivity.
  - exact Hkeep.
  - intros w1 pt1 w2 pt2 w3 H1 H2.
    apply run_step_return_inv in H1. destruct H1 as [_ P1].
    apply run_step_return_inv in H2. destruct H2 as [_ P2].
    assert (Hts : timestamp pt2 = elapsed_time (state (self w2)) + TIME_STEP).
    { rewrite (sp_timestamp _ _ _ P2). exact (sp_elapsed _ _ _ P2). }
    assert (Hsame :
              timestamp pt2 - last_switch_time (regime_scheduler (self w2))
                < REGIME_SWITCH_INTERVAL ->
              pp_regime pt2 = pp_regime pt1
              /\ regime_scheduler (self w3) = regime_scheduler (self w2)).
    { intros Hlt. rewrite Hts in Hlt.
      pose proof (sp_update _ _ _ P2) as Hu.
      rewrite (Hkeep _ _ (np_random w2) Hlt) in Hu. cbn in Hu.
      inversion Hu as [[Hr Hs]].
      split; [| reflexivity].
      rewrite (sp_regime _ _ _ P1). exact (eq_sym (sp_sched _ _ _ P1)). }
    split; [| exact Hsame].
    intros Hne.
    destruct (Qlt_le_dec
                (timestamp pt2 - last_switch_time (regime_scheduler (self w2)))
                REGIME_SWITCH_INTERVAL) as [Hlt | Hge]; [| exact Hge].
    destruct (Hsame Hlt) as [Heq _]. contradiction.
Qed.

Lemma regime_switches_only_after_interval_witness :
  update {| current_regime := HIGH; last_switch_time := 0 |} (2 # 10)
    (seeded sample_tape)
  = (HIGH, {| current_regime := HIGH; last_switch_time := 0 |},
     seeded sample_tape).
Proof.
  apply (regime_switches_only_after_interval sqrt6).
  reflexivity.
Defined.

(** C8, as the code has it.  At construction and after every [reset] the
    state has [current_price] 100, [elapsed_time] 0 and [regime] MEDIUM,
    whatever the random tape; the randomly drawn regime is the one the
    regime scheduler holds, and there each of LOW, MEDIUM and HIGH comes out
    under some tape. *)
Theorem construction_state_regime_is_medium
  (p : SimulationParameters) (w : World) :
  (forall r,
     fst (get_current_state (PriceSimulator_init p r))
     = Return {| current_price := 100; elapsed_time := 0; regime := MEDIUM;
                 regime_switch_time := 0; price_history := [] |})
  /\ fst (get_current_state (snd (reset w)))
     = Return {| current_price := 100; elapsed_time := 0; regime := MEDIUM;
                 regime_switch_time := 0; price_history := [] |}
  /\ (forall rg, exists r,
        current_regime (regime_scheduler (self (PriceSimulator_init p r))) = rg)
  /\ (forall rg, exists r,
        current_regime
          (regime_scheduler
             (self (snd (reset {| self := self w; np_random := r |})))) = rg).
Proof.
  split; [reflexivity |]. split; [reflexivity |].
  split; intros rg;
    exists {| tape := fun _ =>
                mkVariate 0 0
                  match rg with LOW => 0 | MEDIUM => 1 | HIGH => 2 end;
              pos := 0 |};
    destruct rg; reflexivity.
Qed.

(** C8 as written fails: under no random tape does the state read before
    the first [run_step] have regime LOW. *)
Lemma construction_state_regime_never_low :
  ~ exists r s,
      fst (get_current_state (PriceSimulator_init default_parameters r))
      = Return s
      /\ regime s = LOW.
Proof.
  intros (r & s & H & Hr). cbn in H. inversion H; subst. discriminate Hr.
Qed.

(** ** Mean reversion without noise *)

Lemma Qltb_proper (x y a b : Q) :
  x == y -> a == b -> Qltb x a = Qltb y b.
Proof.
  intros Hxy Hab. unfold Qltb. now rewrite Hxy, Hab.
Qed.

Lemma np_clip_proper (x y lo hi : Q) :
  x == y -> np_clip x lo hi == np_clip y lo hi.
Proof.
  intros H. unfold np_clip, np_minimum, np_maximum.
  rewrite (Qltb_proper x y lo lo H (Qeq_refl lo)).
  destruct (Qltb y lo); [reflexivity |].
  rewrite (Qltb_proper hi hi x y (Qeq_refl hi) H).
  destruct (Qltb hi y); [reflexivity | exact H].
Qed.

(** With [max_volatility] zero the shock and the jump magnitude vanish, so
    the value is the clamped mean-reversion step, whatever is drawn. *)
Lemma generate_next_price_zero_volatility
  (np_sqrt : Q -> Q) (dt : Q) (w : World) :
  max_volatility (parameters (self w)) == 0 ->
  exists x r',
    generate_next_price np_sqrt dt w
      = (Return x, {| self := self w; np_random := r' |})
    /\ x == np_clip
              (current_price (state (self w))
               + (LONG_TERM_MEAN - current_price (state (self w)))
                 * mean_reversion_strength (parameters (self w)) * dt)
              PRICE_MIN PRICE_MAX.
Proof.
  intros Hz.
  unfold generate_next_price, _sample_normal_noise, _sample_jump,
    bind, get_state, get_parameters, call_random, ret,
    np_random_random, np_random_normal, draw.
  cbn.
  match goal with |- context [if ?c then _ else _] => destruct c end; cbn;
    eexists; eexists; (split; [reflexivity |]);
    apply np_clip_proper; rewrite Hz; ring.
Qed.

Lemma generate_prices_constant (np_sqrt : Q -> Q) (v : Q) (s : PriceSimulator) :
  (forall w, self w = s ->
     exists x r',
       generate_next_price np_sqrt TIME_STEP w
         = (Return x, {| self := self w; np_random := r' |})
       /\ x == v) ->
  forall n w, self w = s ->
    exists xs w',
      generate_prices np_sqrt n w = (Return xs, w')
      /\ self w' = s
      /\ length xs = n
      /\ Forall (fun x => x == v) xs.
Proof.
  intros Hone. induction n as [| n IH]; intros w Hw.
  - exists [], w. repeat split; auto.
  - destruct (Hone w Hw) as (x & r' & Hx & Hv).
    destruct (IH {| self := self w; np_random := r' |} Hw)
      as (xs & w' & Hxs & Hs & Hl & Hall).
    exists (x :: xs), w'.
    cbn [generate_prices]. unfold bind. rewrite Hx, Hxs.
    repeat split; auto. cbn. now rewrite Hl.
Qed.

(** C7, as the code has it.  In the scenario, ten calls of
    [generate_next_price()] in a row all return the same value 52 (the call
    does not write [current_price]), whatever the random tape: each value is
    above the starting price 50 and strictly closer to 100 than it, none
    exceeds 100, and successive values are equal. *)
Theorem mean_reversion_preview_is_constant
  (np_sqrt : Q -> Q) (r : RandomState) :
  exists xs w',
    generate_prices np_sqrt 10 (mean_reversion_scenario r) = (Return xs, w')
    /\ length xs = 10%nat
    /\ Forall (fun x => x == 52) xs
    /\ Forall (fun x => Qabs (100 - x) < Qabs (100 - 50) /\ x <= 100) xs
    /\ current_price (state (self w')) = 50.
Proof.
  destruct (generate_prices_constant np_sqrt 52
              (self (mean_reversion_scenario r))) with
    (n := 10%nat) (w := mean_reversion_scenario r)
    as (xs & w' & Hxs & Hs & Hl & Hall).
  - intros w Hw.
    destruct (generate_next_price_zero_volatility np_sqrt TIME_STEP w)
      as (x & r' & Hx & Hv).
    + rewrite Hw. reflexivity.
    + exists x, r'. split; [exact Hx |].
      rewrite Hv, Hw. apply np_clip_inside.
      * vm_compute. reflexivity.
      * unfold PRICE_MIN, PRICE_MAX. lra.
  - reflexivity.
  - exists xs, w'. split; [exact Hxs |]. split; [exact Hl |].
    split; [exact Hall |]. split.
    + eapply Forall_impl; [| exact Hall].
      intros x Hx. cbv beta in Hx. rewrite Hx. split.
      * vm_compute. reflexivity.
      * lra.
    + rewrite Hs. reflexivity.
Qed.

(** C7 as written fails: the second value is not strictly closer to 100
    than the first. *)
Lemma mean_reversion_preview_not_strict :
  strictly_approaches 100
    (returned []
       (fst (generate_prices sqrt6 10
               (mean_reversion_scenario (seeded sample_tape)))))
  = false
  /\ length
       (returned []
          (fst (generate_prices sqrt6 10
                  (mean_reversion_scenario (seeded sample_tape)))))
     = 10%nat.
Proof.
  split; vm_compute; reflexivity.
Qed.

(** ** The two jump draws of a step *)

Lemma update_keeps_tape (sch : RegimeScheduler) (t : Q) (r : RandomState) :
  tape (snd (update sch t r)) = tape r.
Proof.
  unfold update. destruct (Qgeb _ _); reflexivity.
Qed.

Lemma price_call_world_eq (w : World) :
  price_call_world w
  = {| self :=
         {| parameters := parameters (self w);
            state :=
              set_regime
                (set_elapsed_time (state (self w))
                   (elapsed_time (state (self w)) + TIME_STEP))
                (fst (fst (update (regime_scheduler (self w))
                             (elapsed_time (state (self w)) + TIME_STEP)
                             (np_random w))));
            regime_scheduler :=
              snd (fst (update (regime_scheduler (self w))
                          (elapsed_time (state (self w)) + TIME_STEP)
                          (np_random w))) |};
       np_random :=
         snd (update (regime_scheduler (self w))
                (elapsed_time (state (self w)) + TIME_STEP) (np_random w)) |}.
Proof.
  unfold price_call_world, bind, modify_state, get_state,
    regime_scheduler_update.
  cbn -[update].
  destruct (update (regime_scheduler (self w))
              (elapsed_time (state (self w)) + TIME_STEP) (np_random w))
    as [[rg sch'] r'].
  reflexivity.
Qed.

Lemma run_step_draws (np_sqrt : Q -> Q) (w : World)
  (pt : PricePoint) (w' : World) :
  run_step np_sqrt w = (Return pt, w') -> two_draws np_sqrt w pt.
Proof.
  intros H. unfold two_draws.
  unfold price_jump, price_shock, effective_volatility_of, jump_prob_of.
  rewrite price_call_world_eq.
  pose proof (update_keeps_tape (regime_scheduler (self w))
                (elapsed_time (state (self w)) + TIME_STEP) (np_random w))
    as Htape.
  unfold run_step in H.
  unfold generate_next_price, _sample_normal_noise, _sample_jump,
    bind, modify_state, get_state, get_parameters,
    regime_scheduler_update, call_random, ret, raise,
    np_random_random, np_random_normal, draw in *.
  destruct (Qgtb (elapsed_time (state (self w))) TOTAL_DURATION);
    [discriminate |].
  cbn -[update] in H.
  destruct (update (regime_scheduler (self w))
              (elapsed_time (state (self w)) + TIME_STEP) (np_random w))
    as [[rg sch'] r'].
  cbn in *. rewrite <- Htape.
  match type of H with context [if ?c then _ else _] =>
    destruct c eqn:Hj end;
    cbn in *; inversion H; subst; clear H; cbn;
    do 5 eexists; repeat split; try reflexivity; try lia; try discriminate.
  all: cbn; try lia; symmetry; assumption.
Qed.

Lemma flag_only_tape_in_range : uniforms_in_range (seeded flag_only_tape).
Proof.
  intros i. do 4 (destruct i as [| i]; [cbn; lra |]).
  destruct i; cbn; lra.
Qed.

Lemma jump_only_tape_in_range : uniforms_in_range (seeded jump_only_tape).
Proof.
  intros i. do 5 (destruct i as [| i]; [cbn; lra |]).
  destruct i; cbn; lra.
Qed.

Lemma flag_without_jump (np_sqrt : Q -> Q) (p : SimulationParameters) :
  0 < jump_frequency p <= 5 ->
  exists pt w',
    run_step np_sqrt (PriceSimulator_init p (seeded flag_only_tape))
      = (Return pt, w')
    /\ jump_occurred pt = true
    /\ fst (price_jump np_sqrt (PriceSimulator_init p (seeded flag_only_tape)))
       = Return (false, 0).
Proof.
  intros [Hpos Hle].
  assert (Hd : TIME_STEP / 60 == 1 # 300) by (vm_compute; reflexivity).
  assert (Hno : Qltb (1 # 2) (jump_frequency p * 1 * (TIME_STEP / 60)) = false).
  { apply Qltb_ge. rewrite Hd. lra. }
  assert (Hyes : Qltb 0 (jump_frequency p * 1 * (TIME_STEP / 60)) = true).
  { apply Qltb_lt. rewrite Hd. lra. }
  unfold price_jump, price_shock, effective_volatility_of.
  rewrite price_call_world_eq.
  unfold run_step, generate_next_price, _sample_normal_noise, _sample_jump,
    bind, modify_state, get_state, get_parameters,
    regime_scheduler_update, call_random, ret, raise,
    np_random_random, np_random_normal, draw.
  cbn. rewrite Hno. cbn. rewrite Hyes.
  eexists. eexists. repeat split.
Qed.

Lemma jump_without_flag (np_sqrt : Q -> Q) (p : SimulationParameters) :
  0 < jump_frequency p <= 5 ->
  0 < max_volatility p ->
  exists pt w' mag,
    run_step np_sqrt (PriceSimulator_init p (seeded jump_only_tape))
      = (Return pt, w')
    /\ jump_occurred pt = false
    /\ fst (price_jump np_sqrt (PriceSimulator_init p (seeded jump_only_tape)))
       = Return (true, mag)
    /\ ~ mag == 0.
Proof.
  intros [Hpos Hle] Hmv.
  assert (Hd : TIME_STEP / 60 == 1 # 300) by (vm_compute; reflexivity).
  assert (Hno : Qltb (1 # 2) (jump_frequency p * 1 * (TIME_STEP / 60)) = false).
  { apply Qltb_ge. rewrite Hd. lra. }
  assert (Hyes : Qltb 0 (jump_frequency p * 1 * (TIME_STEP / 60)) = true).
  { apply Qltb_lt. rewrite Hd. lra. }
  unfold price_jump, price_shock, effective_volatility_of.
  rewrite price_call_world_eq.
  unfold run_step, generate_next_price, _sample_normal_noise, _sample_jump,
    bind, modify_state, get_state, get_parameters,
    regime_scheduler_update, call_random, ret, raise,
    np_random_random, np_random_normal, draw.
  cbn. rewrite Hyes. cbn. rewrite Hno.
  eexists. eexists. eexists. repeat split.
  cbn. lra.
Qed.

(** C9.  The flag of a returned point is a second Bernoulli draw: the price
    computation decides its jump on one tape cell, the flag is a later cell
    compared with the same per-step probability.  So, for parameters in the
    clamped ranges with a positive jump frequency and volatility, some tape
    with uniforms in [0, 1) gives a point flagged [true] whose price got no
    jump (magnitude 0), and some tape gives a point flagged [false] whose
    price got a jump of non-zero magnitude. *)
Theorem jump_flag_is_a_second_draw
  (np_sqrt : Q -> Q) (p : SimulationParameters) :
  0 < jump_frequency p <= 5 ->
  0 < max_volatility p ->
  (forall w pt w',
     run_step np_sqrt w = (Return pt, w') -> two_draws np_sqrt w pt)
  /\ (exists r pt w',
        uniforms_in_range r
        /\ run_step np_sqrt (PriceSimulator_init p r) = (Return pt, w')
        /\ jump_occurred pt = true
        /\ fst (price_jump np_sqrt (PriceSimulator_init p r))
           = Return (false, 0))
  /\ (exists r pt w' mag,
        uniforms_in_range r
        /\ run_step np_sqrt (PriceSimulator_init p r) = (Return pt, w')
        /\ jump_occurred pt = false
        /\ fst (price_jump np_sqrt (PriceSimulator_init p r))
           = Return (true, mag)
        /\ ~ mag == 0).
Proof.
  intros Hjf Hmv. split; [| split].
  - intros w pt w'. apply run_step_draws.
  - destruct (flag_without_jump np_sqrt p Hjf) as (pt & w' & H).
    exists (seeded flag_only_tape), pt, w'.
    split; [apply flag_only_tape_in_range | exact H].
  - destruct (jump_without_flag np_sqrt p Hjf Hmv) as (pt & w' & mag & H).
    exists (seeded jump_only_tape), pt, w', mag.
    split; [apply jump_only_tape_in_range | exact H].
Qed.

Lemma jump_flag_is_a_second_draw_witness :
  exists r pt w',
    uniforms_in_range r
    /\ run_step sqrt6 (PriceSimulator_init default_parameters r) = (Return pt, w')
    /\ jump_occurred pt = true
    /\ fst (price_jump sqrt6 (PriceSimulator_init default_parameters r))
       = Return (false, 0).
Proof.
  apply (jump_flag_is_a_second_draw sqrt6 default_parameters).
  - vm_compute. split; [reflexivity | discriminate].
  - vm_compute. reflexivity.
Defined.

(** ** Parameter clamping *)

Lemma py_clamp_range (lo hi x : Q) :
  lo <= hi -> lo <= py_max lo (py_min hi x) <= hi.
Proof.
  intros H. unfold py_max, py_min, Qgtb.
  destruct (Qltb x hi) eqn:E1.
  - apply Qltb_lt in E1.
    destruct (Qltb lo x) eqn:E2.
    + apply Qltb_lt in E2. lra.
    + lra.
  - destruct (Qltb lo hi) eqn:E2; lra.
Qed.

Lemma py_clamp_inside (lo hi x : Q) :
  lo <= x <= hi -> py_max lo (py_min hi x) == x.
Proof.
  intros [Hl Hh]. unfold py_max, py_min, Qgtb.
  destruct (Qltb x hi) eqn:E1.
  - destruct (Qltb lo x) eqn:E2; [reflexivity |].
    apply Qltb_ge in E2. lra.
  - apply Qltb_ge in E1.
    destruct (Qltb lo hi) eqn:E2.
    + lra.
    + apply Qltb_ge in E2. lra.
Qed.

Lemma py_clamp_below (lo hi x : Q) :
  lo <= hi -> x <= lo -> py_max lo (py_min hi x) == lo.
Proof.
  intros H Hx. unfold py_max, py_min, Qgtb.
  destruct (Qltb x hi) eqn:E1.
  - destruct (Qltb lo x) eqn:E2; [| reflexivity].
    apply Qltb_lt in E2. lra.
  - apply Qltb_ge in E1.
    destruct (Qltb lo hi) eqn:E2; lra.
Qed.

Lemma py_clamp_above (lo hi x : Q) :
  lo <= hi -> hi <= x -> py_max lo (py_min hi x) == hi.
Proof.
  intros H Hx. unfold py_max, py_min, Qgtb.
  destruct (Qltb x hi) eqn:E1.
  - apply Qltb_lt in E1. lra.
  - destruct (Qltb lo hi) eqn:E2; [reflexivity |].
    apply Qltb_ge in E2. lra.
Qed.

Lemma SimulationParameters_init_in_ranges (mv mrs jf : Q) :
  in_ranges (SimulationParameters_init mv mrs jf).
Proof.
  unfold in_ranges, SimulationParameters_init. cbn [max_volatility
    mean_reversion_strength jump_frequency].
  split; [| split]; apply py_clamp_range; lra.
Qed.

(** X1.  Whatever numbers the constructor is given, the parameters it
    builds lie in the documented ranges: [max_volatility] in [0, 50],
    [mean_reversion_strength] in [0.01, 0.5], [jump_frequency] in [0, 5]. *)
Theorem parameters_always_in_ranges (mv mrs jf : Q) :
  0 <= max_volatility (SimulationParameters_init mv mrs jf) <= 50
  /\ (1 # 100) <= mean_reversion_strength (SimulationParameters_init mv mrs jf)
     <= (1 # 2)
  /\ 0 <= jump_frequency (SimulationParameters_init mv mrs jf) <= 5.
Proof.
  exact (SimulationParameters_init_in_ranges mv mrs jf).
Qed.

(** X2.  Values already inside the ranges pass through the constructor
    unchanged. *)
Theorem parameters_in_range_kept (mv mrs jf : Q) :
  0 <= mv <= 50 ->
  (1 # 100) <= mrs <= (1 # 2) ->
  0 <= jf <= 5 ->
  max_volatility (SimulationParameters_init mv mrs jf) == mv
  /\ mean_reversion_strength (SimulationParameters_init mv mrs jf) == mrs
  /\ jump_frequency (SimulationParameters_init mv mrs jf) == jf.
Proof.
  intros H1 H2 H3. cbn [SimulationParameters_init max_volatility
    mean_reversion_strength jump_frequency].
  split; [| split]; apply py_clamp_inside; assumption.
Qed.

Lemma parameters_in_range_kept_witness :
  max_volatility (SimulationParameters_init 25 (1 # 10) 1) == 25
  /\ mean_reversion_strength (SimulationParameters_init 25 (1 # 10) 1) == 1 # 10
  /\ jump_frequency (SimulationParameters_init 25 (1 # 10) 1) == 1.
Proof.
  apply (parameters_in_range_kept 25 (1 # 10) 1);
    split; vm_compute; discriminate.
Defined.

(** X3.  Values outside a range saturate at the nearer bound: a volatility
    below 0 becomes 0 and one above 50 becomes 50, a strength below 0.01
    becomes 0.01 and one above 0.5 becomes 0.5, a frequency below 0 becomes
    0 and one above 5 becomes 5. *)
Theorem parameters_out_of_range_saturate (mv mrs jf : Q) :
  (mv <= 0 -> max_volatility (SimulationParameters_init mv mrs jf) == 0)
  /\ (50 <= mv -> max_volatility (SimulationParameters_init mv mrs jf) == 50)
  /\ (mrs <= (1 # 100) ->
      mean_reversion_strength (SimulationParameters_init mv mrs jf) == 1 # 100)
  /\ ((1 # 2) <= mrs ->
      mean_reversion_strength (SimulationParameters_init mv mrs jf) == 1 # 2)
  /\ (jf <= 0 -> jump_frequency (SimulationParameters_init mv mrs jf) == 0)
  /\ (5 <= jf -> jump_frequency (SimulationParameters_init mv mrs jf) == 5).
Proof.
  cbn [SimulationParameters_init max_volatility mean_reversion_strength
    jump_frequency].
  repeat split; intros H;
    (apply py_clamp_below; lra) || (apply py_clamp_above; lra).
Qed.

Lemma parameters_out_of_range_saturate_witness :
  max_volatility (SimulationParameters_init (-5) (5 # 100) 10) == 0
  /\ jump_frequency (SimulationParameters_init (-5) (5 # 100) 10) == 5.
Proof.
  destruct (parameters_out_of_range_saturate (-5) (5 # 100) 10)
    as (Hlo & _ & _ & _ & _ & Hhi).
  split; [apply Hlo | apply Hhi]; vm_compute; discriminate.
Defined.

(** X4.  Clamping is idempotent: building parameters again from the fields
    of built parameters changes nothing. *)
Theorem parameters_clamp_idempotent (mv mrs jf : Q) :
  max_volatility
    (SimulationParameters_init
       (max_volatility (SimulationParameters_init mv mrs jf))
       (mean_reversion_strength (SimulationParameters_init mv mrs jf))
       (jump_frequency (SimulationParameters_init mv mrs jf)))
  == max_volatility (SimulationParameters_init mv mrs jf)
  /\ mean_reversion_strength
       (SimulationParameters_init
          (max_volatility (SimulationParameters_init mv mrs jf))
          (mean_reversion_strength (SimulationParameters_init mv mrs jf))
          (jump_frequency (SimulationParameters_init mv mrs jf)))
     == mean_reversion_strength (SimulationParameters_init mv mrs jf)
  /\ jump_frequency
       (SimulationParameters_init
          (max_volatility (SimulationParameters_init mv mrs jf))
          (mean_reversion_strength (SimulationParameters_init mv mrs jf))
          (jump_frequency (SimulationParameters_init mv mrs jf)))
     == jump_frequency (SimulationParameters_init mv mrs jf).
Proof.
  destruct (SimulationParameters_init_in_ranges mv mrs jf) as (H1 & H2 & H3).
  set (p := SimulationParameters_init mv mrs jf) in *.
  cbn [SimulationParameters_init max_volatility mean_reversion_strength
    jump_frequency].
  split; [| split]; apply py_clamp_inside; assumption.
Qed.

(** ** The per-step jump probability *)

Lemma regime_multipliers_bounds (rg : VolatilityRegime) :
  (1 # 2) <= volatility_multiplier (REGIME_CONFIGS rg) <= (3 # 2)
  /\ 1 <= jump_probability_multiplier (REGIME_CONFIGS rg) <= 2.
Proof.
  destruct rg; cbn; lra.
Qed.

Lemma time_step_per_minute : TIME_STEP / 60 == 1 # 300.
Proof. vm_compute. reflexivity. Qed.

(** X5.  For parameters in the clamped ranges the per-step jump
    probability used by [_sample_jump] and by [run_step] is a probability:
    it lies between 0 and 1/30 in every regime. *)
Theorem jump_probability_is_a_probability (w : World) :
  in_ranges (parameters (self w)) ->
  0 <= jump_prob_of w <= 1 # 30.
Proof.
  intros (_ & _ & Hjf). unfold jump_prob_of.
  rewrite time_step_per_minute.
  destruct (regime_multipliers_bounds (regime (state (self w)))) as [_ Hm].
  nra.
Qed.

Lemma jump_probability_is_a_probability_witness :
  0 <= jump_prob_of sample_world <= 1 # 30.
Proof.
  apply (jump_probability_is_a_probability sample_world).
  vm_compute. repeat split; discriminate.
Defined.

(** ** The scheduler's accessors *)

(** X6.  The regime [update] returns is the one [get_regime] reports
    afterwards, and [get_config()] then gives that regime's configuration;
    [get_config(regime)] ignores the scheduler. *)
Theorem update_then_get_regime
  (sch : RegimeScheduler) (t : Q) (r : RandomState) (rg : VolatilityRegime) :
  get_regime (snd (fst (update sch t r))) = fst (fst (update sch t r))
  /\ get_config (snd (fst (update sch t r))) None
     = REGIME_CONFIGS (fst (fst (update sch t r)))
  /\ get_config (snd (fst (update sch t r))) (Some rg) = REGIME_CONFIGS rg.
Proof.
  unfold get_regime, get_config.
  rewrite <- (update_returns_current sch t r). repeat split.
Qed.

(** X7.  A second [update] at the same time changes nothing: it returns
    the regime of the first call and leaves scheduler and generator as the
    first call left them, whether or not the first call switched. *)
Theorem update_twice_same_time
  (sch : RegimeScheduler) (t : Q) (r : RandomState) :
  update (snd (fst (update sch t r))) t (snd (update sch t r))
  = (fst (fst (update sch t r)), snd (fst (update sch t r)),
     snd (update sch t r)).
Proof.
  unfold update at 2 3 4 5 6.
  destruct (Qgeb (t - last_switch_time sch) REGIME_SWITCH_INTERVAL) eqn:E.
  - destruct (_select_random_regime r) as [rg r']. cbn [fst snd].
    unfold update. cbn [last_switch_time current_regime].
    assert (H : Qgeb (t - t) REGIME_SWITCH_INTERVAL = false).
    { apply Qgeb_lt. unfold REGIME_SWITCH_INTERVAL. lra. }
    rewrite H. reflexivity.
  - cbn [fst snd]. unfold update. rewrite E. reflexivity.
Qed.

(** ** What a step leaves alone *)

Lemma run_step_keeps_tape (np_sqrt : Q -> Q) (w : World) :
  tape (np_random (snd (run_step np_sqrt w))) = tape (np_random w).
Proof.
  pose proof (update_keeps_tape (regime_scheduler (self w))
                (elapsed_time (state (self w)) + TIME_STEP) (np_random w))
    as Htape.
  unfold run_step, generate_next_price, _sample_normal_noise, _sample_jump,
    bind, modify_state, get_state, get_parameters,
    regime_scheduler_update, call_random, ret, raise,
    np_random_random, np_random_normal, draw.
  destruct (Qgtb (elapsed_time (state (self w))) TOTAL_DURATION);
    [reflexivity |].
  cbn -[update].
  destruct (update (regime_scheduler (self w))
              (elapsed_time (state (self w)) + TIME_STEP) (np_random w))
    as [[rg sch'] r'].
  cbn in *.
  match goal with |- context [if ?c then _ else _] => destruct c end;
    cbn; exact Htape.
Qed.

Lemma run_step_caught_frame (np_sqrt : Q -> Q) (w : World) :
  parameters (self (run_step_caught np_sqrt w)) = parameters (self w)
  /\ regime_switch_time (state (self (run_step_caught np_sqrt w)))
     = regime_switch_time (state (self w))
  /\ tape (np_random (run_step_caught np_sqrt w)) = tape (np_random w)
  /\ exists suffix,
       price_history (state (self (run_step_caught np_sqrt w)))
       = price_history (state (self w)) ++ suffix.
Proof.
  unfold run_step_caught.
  split; [| split; [| split]].
  - destruct (run_step_cases np_sqrt w) as [[_ Hr] | [_ (pt & w' & Hr & Hp)]];
      rewrite Hr; cbn; [reflexivity | exact (sp_parameters _ _ _ Hp)].
  - destruct (run_step_cases np_sqrt w) as [[_ Hr] | [_ (pt & w' & Hr & Hp)]];
      rewrite Hr; cbn; [reflexivity | exact (sp_switch_time _ _ _ Hp)].
  - apply run_step_keeps_tape.
  - destruct (run_step_cases np_sqrt w) as [[_ Hr] | [_ (pt & w' & Hr & Hp)]];
      rewrite Hr; cbn.
    + exists []. now rewrite app_nil_r.
    + exists [pt]. exact (sp_history _ _ _ Hp).
Qed.

Lemma after_calls_succ (np_sqrt : Q -> Q) (n : nat) (w : World) :
  after_calls np_sqrt (S n) w
  = run_step_caught np_sqrt (after_calls np_sqrt n w).
Proof. reflexivity. Qed.

(** X13.  [price_history] is append-only: after any number of calls of
    [run_step], raising ones included, the earlier history is a prefix of
    the later one. *)
Theorem price_history_append_only (np_sqrt : Q -> Q) (n : nat) (w : World) :
  exists suffix,
    price_history (state (self (after_calls np_sqrt n w)))
    = price_history (state (self w)) ++ suffix.
Proof.
  induction n as [| n [sfx IH]].
  - exists []. cbn. now rewrite app_nil_r.
  - rewrite after_calls_succ.
    destruct (run_step_caught_frame np_sqrt (after_calls np_sqrt n w))
      as (_ & _ & _ & sfx' & H).
    exists (sfx ++ sfx'). rewrite H, IH, app_assoc. reflexivity.
Qed.

(** X14.  [run_step] never writes the parameters, nor the state's
    [regime_switch_time]: after any number of calls both are what they
    were, so from construction [regime_switch_time] stays 0 even when the
    scheduler has switched. *)
Theorem run_step_never_writes_parameters_or_switch_time
  (np_sqrt : Q -> Q) (n : nat) (w : World) :
  parameters (self (after_calls np_sqrt n w)) = parameters (self w)
  /\ regime_switch_time (state (self (after_calls np_sqrt n w)))
     = regime_switch_time (state (self w)).
Proof.
  induction n as [| n [IHp IHs]].
  - split; reflexivity.
  - rewrite after_calls_succ.
    destruct (run_step_caught_frame np_sqrt (after_calls np_sqrt n w))
      as (Hp & Hs & _).
    split; congruence.
Qed.

(** ** Runs without jumps, runs without noise *)

Lemma price_call_world_parameters (w : World) :
  parameters (self (price_call_world w)) = parameters (self w).
Proof. rewrite price_call_world_eq. reflexivity. Qed.

Lemma Qltb_nonneg_zero (u q : Q) : 0 <= u -> q == 0 -> Qltb u q = false.
Proof.
  intros Hu Hq. apply Qltb_ge. lra.
Qed.

Lemma sample_jump_zero_frequency (v : Q) (w : World) :
  jump_frequency (parameters (self w)) == 0 ->
  0 <= uniform (tape (np_random w) (pos (np_random w))) ->
  _sample_jump v w
  = (Return (false, 0),
     {| self := self w;
        np_random := {| tape := tape (np_random w);
                        pos := S (pos (np_random w)) |} |}).
Proof.
  intros Hz Hu.
  unfold _sample_jump, bind, get_state, get_parameters, call_random, ret,
    np_random_random, draw.
  cbn.
  rewrite (Qltb_nonneg_zero _ _ Hu); [reflexivity |].
  rewrite Hz. ring.
Qed.

(** X9.  With [jump_frequency] zero and uniform variates in [0, 1),
    [_sample_jump] never reports a jump: it returns [(False, 0.0)] for any
    volatility and consumes exactly one draw. *)
Theorem sample_jump_never_jumps_at_zero_frequency (v : Q) (w : World) :
  jump_frequency (parameters (self w)) == 0 ->
  uniforms_in_range (np_random w) ->
  _sample_jump v w
  = (Return (false, 0),
     {| self := self w;
        np_random := {| tape := tape (np_random w);
                        pos := S (pos (np_random w)) |} |}).
Proof.
  intros Hz Hu. apply sample_jump_zero_frequency; [exact Hz |].
  apply Hu.
Qed.

Lemma run_step_flag_zero_frequency
  (np_sqrt : Q -> Q) (w : World) (pt : PricePoint) (w' : World) :
  jump_frequency (parameters (self w)) == 0 ->
  uniforms_in_range (np_random w) ->
  run_step np_sqrt w = (Return pt, w') ->
  jump_occurred pt = false.
Proof.
  intros Hz Hu Hr. apply run_step_draws in Hr.
  destruct Hr as (shock & wb & occ & mag & wc & _ & _ & _ & _ & Hf & _).
  rewrite Hf. apply Qltb_nonneg_zero; [apply Hu |].
  unfold jump_prob_of. rewrite price_call_world_parameters, Hz. ring.
Qed.

Lemma run_step_return_frame
  (np_sqrt : Q -> Q) (w : World) (pt : PricePoint) (w' : World) :
  run_step np_sqrt w = (Return pt, w') ->
  parameters (self w') = parameters (self w)
  /\ tape (np_random w') = tape (np_random w).
Proof.
  intros Hr.
  destruct (run_step_caught_frame np_sqrt w) as (Hp & _ & Ht & _).
  unfold run_step_caught in *. rewrite Hr in *. split; assumption.
Qed.

Lemma run_steps_flags_zero_frequency (np_sqrt : Q -> Q) (n : nat) :
  forall (w : World) (pts : list PricePoint) (w' : World),
    jump_frequency (parameters (self w)) == 0 ->
    uniforms_in_range (np_random w) ->
    run_steps np_sqrt n w = (Return pts, w') ->
    Forall (fun pt => jump_occurred pt = false) pts.
Proof.
  induction n as [| n IH]; intros w pts w' Hz Hu H.
  - cbn in H. inversion H; subst. constructor.
  - cbn [run_steps] in H. unfold bind at 1 in H.
    destruct (run_step np_sqrt w) as [[pt | e] w1] eqn:Hs; [| discriminate].
    unfold bind at 1 in H.
    destruct (run_steps np_sqrt n w1) as [[pts1 | e] w2] eqn:Hr; [| discriminate].
    unfold ret in H. inversion H; subst. clear H.
    destruct (run_step_return_frame np_sqrt w pt w1 Hs) as [Hp Ht].
    constructor.
    + exact (run_step_flag_zero_frequency np_sqrt w pt w1 Hz Hu Hs).
    + apply (IH w1 pts1 w'); [now rewrite Hp | | exact Hr].
      intros i. unfold uniforms_in_range in Hu. rewrite Ht. apply Hu.
Qed.

Lemma filter_all_false {A} (f : A -> bool) (l : list A) :
  Forall (fun x => f x = false) l -> filter f l = [].
Proof.
  induction 1 as [| x l Hx _ IH]; cbn; [reflexivity |].
  now rewrite Hx.
Qed.

(** X8.  With [jump_frequency] zero and uniform variates in [0, 1), no
    point returned by any run of [run_step] has [jump_occurred] set, and
    the "Jumps Detected" count the UI computes from the history stays what
    it was (0 from a fresh simulator). *)
Theorem no_jump_flags_at_zero_frequency
  (np_sqrt : Q -> Q) (N : nat) (w : World)
  (pts : list PricePoint) (w' : World) :
  jump_frequency (parameters (self w)) == 0 ->
  uniforms_in_range (np_random w) ->
  run_steps np_sqrt N w = (Return pts, w') ->
  Forall (fun pt => jump_occurred pt = false) pts
  /\ jump_count (state (self w')) = jump_count (state (self w)).
Proof.
  intros Hz Hu Hr.
  pose proof (run_steps_flags_zero_frequency np_sqrt N w pts w' Hz Hu Hr) as Hf.
  split; [exact Hf |].
  apply run_steps_return_inv in Hr. destruct Hr as (_ & Hh & _).
  unfold jump_count. rewrite Hh, filter_app, (filter_all_false _ _ Hf).
  now rewrite app_nil_r.
Qed.

Lemma no_jump_flags_at_zero_frequency_witness :
  jump_count
    (state (self (snd (run_steps sqrt6 3
       (PriceSimulator_init (SimulationParameters_init 15 (5 # 100) 0)
          (seeded sample_tape))))))
  = 0%nat.
Proof.
  apply (no_jump_flags_at_zero_frequency sqrt6 3
           (PriceSimulator_init (SimulationParameters_init 15 (5 # 100) 0)
              (seeded sample_tape))
           (returned []
              (fst (run_steps sqrt6 3
                 (PriceSimulator_init (SimulationParameters_init 15 (5 # 100) 0)
                    (seeded sample_tape)))))).
  - vm_compute. reflexivity.
  - intros i. do 8 (destruct i as [| i]; [cbn; lra |]).
    destruct i; cbn; lra.
  - vm_compute. reflexivity.
Defined.

Lemma price_shock_zero_volatility
  (np_sqrt : Q -> Q) (w : World) (shock : Q) (wb : World) :
  max_volatility (parameters (self w)) == 0 ->
  price_shock np_sqrt w = (Return shock, wb) ->
  shock == 0.
Proof.
  intros Hz H.
  unfold price_shock, effective_volatility_of, _sample_normal_noise,
    call_random, np_random_normal, draw in H.
  rewrite price_call_world_eq in H. cbn in H.
  inversion H; subst. rewrite Hz. ring.
Qed.

Lemma price_jump_zero_volatility
  (np_sqrt : Q -> Q) (w : World) (occ : bool) (mag : Q) (wc : World) :
  max_volatility (parameters (self w)) == 0 ->
  price_jump np_sqrt w = (Return (occ, mag), wc) ->
  mag == 0.
Proof.
  intros Hz H.
  unfold price_jump, price_shock, effective_volatility_of,
    _sample_normal_noise, _sample_jump, bind, get_state, get_parameters,
    call_random, ret, np_random_random, np_random_normal, draw in H.
  rewrite price_call_world_eq in H. cbn in H.
  match type of H with context [if ?c then _ else _] => destruct c end;
    cbn in H; inversion H; subst; [rewrite Hz; ring | reflexivity].
Qed.

Lemma run_step_price_zero_volatility
  (np_sqrt : Q -> Q) (w : World) (pt : PricePoint) (w' : World) :
  max_volatility (parameters (self w)) == 0 ->
  run_step np_sqrt w = (Return pt, w') ->
  price pt
  == np_clip
       (current_price (state (self w))
        + (LONG_TERM_MEAN - current_price (state (self w)))
          * mean_reversion_strength (parameters (self w)) * TIME_STEP)
       PRICE_MIN PRICE_MAX.
Proof.
  intros Hz Hr. apply run_step_draws in Hr.
  destruct Hr as (shock & wb & occ & mag & wc & Hs & Hj & Hp & _).
  rewrite Hp. apply np_clip_proper.
  rewrite (price_shock_zero_volatility np_sqrt w shock wb Hz Hs).
  rewrite (price_jump_zero_volatility np_sqrt w occ mag wc Hz Hj).
  ring.
Qed.



Lemma run_steps_prices_zero_volatility (np_sqrt : Q -> Q) (n : nat) :
  forall (w : World) (pts : list PricePoint) (w' : World),
    max_volatility (parameters (self w)) == 0 ->
    current_price (state (self w)) == LONG_TERM_MEAN ->
    run_steps np_sqrt n w = (Return pts, w') ->
    Forall (fun pt => price pt == LONG_TERM_MEAN) pts
    /\ current_price (state (self w')) == LONG_TERM_MEAN.
Proof.
  induction n as [| n IH]; intros w pts w' Hz Hc H.
  - cbn in H. inversion H; subst. split; [constructor | exact Hc].
  - cbn [run_steps] in H. unfold bind at 1 in H.
    destruct (run_step np_sqrt w) as [[pt | e] w1] eqn:Hs; [| discriminate].
    unfold bind at 1 in H.
    destruct (run_steps np_sqrt n w1) as [[pts1 | e] w2] eqn:Hr; [| discriminate].
    unfold ret in H. inversion H; subst. clear H.
    destruct (run_step_return_frame np_sqrt w pt w1 Hs) as [Hp _].
    assert (Hv : price pt == LONG_TERM_MEAN).
    { rewrite (run_step_price_zero_volatility np_sqrt w pt w1 Hz Hs).
      apply np_clip_inside.
      - rewrite Hc. ring.
      - unfold PRICE_MIN, PRICE_MAX, LONG_TERM_MEAN. lra. }
    destruct (IH w1 pts1 w') as [Hall Hfin]; [now rewrite Hp | | exact Hr |].
    + apply run_step_return_inv in Hs. destruct Hs as [_ Hpost].
      rewrite <- (sp_price _ _ _ Hpost). exact Hv.
    + split; [constructor; assumption | exact Hfin].
Qed.

(** X11.  With [max_volatility] zero a simulator that starts at the
    long-term mean (as every fresh one does) stays there: every point of
    every run has price 100, whatever the tape, the mean-reversion strength
    and the jump frequency. *)
Theorem zero_volatility_run_stays_at_mean
  (np_sqrt : Q -> Q) (N : nat) (w : World)
  (pts : list PricePoint) (w' : World) :
  max_volatility (parameters (self w)) == 0 ->
  fresh w ->
  run_steps np_sqrt N w = (Return pts, w') ->
  Forall (fun pt => price pt == 100) pts
  /\ current_price (state (self w')) == 100.
Proof.
  intros Hz Hf Hr.
  assert (Hc : current_price (state (self w)) == LONG_TERM_MEAN).
  { unfold fresh in Hf. rewrite Hf. reflexivity. }
  exact (run_steps_prices_zero_volatility np_sqrt N w pts w' Hz Hc Hr).
Qed.

Lemma zero_volatility_run_stays_at_mean_witness :
  current_price
    (state (self (snd (run_steps sqrt6 3
       (PriceSimulator_init (SimulationParameters_init 0 (5 # 100) 2)
          (seeded sample_tape))))))
  == 100.
Proof.
  apply (zero_volatility_run_stays_at_mean sqrt6 3
           (PriceSimulator_init (SimulationParameters_init 0 (5 # 100) 2)
              (seeded sample_tape))
           (returned []
              (fst (run_steps sqrt6 3
                 (PriceSimulator_init (SimulationParameters_init 0 (5 # 100) 2)
                    (seeded sample_tape)))))).
  - vm_compute. reflexivity.
  - reflexivity.
  - vm_compute. reflexivity.
Defined.

(** ** The horizon *)

Lemma after_calls_shift (np_sqrt : Q -> Q) (n : nat) (w : World) :
  after_calls np_sqrt (S n) w
  = after_calls np_sqrt n (run_step_caught np_sqrt w).
Proof.
  unfold after_calls. apply Nat.iter_succ_r.
Qed.

Lemma after_calls_run_steps (np_sqrt : Q -> Q) (n : nat) :
  forall (w : World) (pts : list PricePoint) (w' : World),
    run_steps np_sqrt n w = (Return pts, w') ->
    after_calls np_sqrt n w = w'.
Proof.
  induction n as [| n IH]; intros w pts w' H.
  - cbn in H. inversion H. reflexivity.
  - cbn [run_steps] in H. unfold bind at 1 in H.
    destruct (run_step np_sqrt w) as [[pt | e] w1] eqn:Hs; [| discriminate].
    unfold bind at 1 in H.
    destruct (run_steps np_sqrt n w1) as [[pts1 | e] w2] eqn:Hr; [| discriminate].
    unfold ret in H. inversion H; subst. clear H.
    rewrite after_calls_shift. unfold run_step_caught at 1. rewrite Hs.
    exact (IH w1 pts1 w' Hr).
Qed.

Lemma after_calls_completed (np_sqrt : Q -> Q) (n : nat) (w : World) :
  TOTAL_DURATION < elapsed_time (state (self w)) ->
  after_calls np_sqrt n w = w.
Proof.
  intros Hgt. induction n as [| n IH]; [reflexivity |].
  rewrite after_calls_succ, IH. unfold run_step_caught.
  destruct (run_step_cases np_sqrt w) as [[_ Hr] | [Hle _]]; [| lra].
  rewrite Hr. reflexivity.
Qed.

Lemma after_calls_add (np_sqrt : Q -> Q) (n m : nat) (w : World) :
  after_calls np_sqrt (n + m) w
  = after_calls np_sqrt n (after_calls np_sqrt m w).
Proof.
  unfold after_calls. apply Nat.iter_add.
Qed.

Lemma after_calls_fresh (np_sqrt : Q -> Q) (n : nat) (w : World) :
  fresh w ->
  elapsed_time (state (self (after_calls np_sqrt n w)))
    == steps_time (Nat.min n 901)
  /\ length (price_history (state (self (after_calls np_sqrt n w))))
     = Nat.min n 901.
Proof.
  intros Hf.
  assert (Hrun : forall m, (m <= 901)%nat ->
            elapsed_time (state (self (after_calls np_sqrt m w)))
              == steps_time m
            /\ length (price_history (state (self (after_calls np_sqrt m w))))
               = m).
  { intros m Hm.
    destruct (run_steps_returns np_sqrt m w) as (pts & w' & Hr).
    { unfold fresh in Hf. rewrite Hf.
      pose proof (steps_time_mono m 901 Hm) as Hmono.
      assert (H901 : steps_time 901 == 1802 # 10) by (vm_compute; reflexivity).
      change (elapsed_time (SimulationState_init LONG_TERM_MEAN)) with 0.
      unfold TOTAL_DURATION, TIME_STEP. lra. }
    rewrite (after_calls_run_steps np_sqrt m w pts w' Hr).
    apply run_steps_return_inv in Hr.
    destruct Hr as (Hlen & Hh & Ht & _).
    unfold fresh in Hf. rewrite Hf in Hh, Ht. cbn in Hh, Ht.
    split; [rewrite Ht; ring | rewrite Hh; exact Hlen]. }
  destruct (Nat.le_gt_cases n 901) as [Hle | Hgt].
  - rewrite Nat.min_l by exact Hle. apply Hrun. exact Hle.
  - rewrite Nat.min_r by lia.
    replace n with ((n - 901) + 901)%nat by lia.
    rewrite after_calls_add.
    destruct (Hrun 901%nat (Nat.le_refl _)) as [Ht Hl].
    rewrite after_calls_completed; [split; assumption |].
    rewrite Ht. vm_compute. reflexivity.
Qed.

(** X12.  From a fresh simulator the clock never passes
    [TOTAL_DURATION + TIME_STEP] and the history never holds more than 901
    points, however often [run_step] is called: after [n] calls (errors
    caught) the clock is [min(n, 901) * 0.2] and the history has
    [min(n, 901)] entries.  Exact arithmetic: the call at exactly 180.0 is
    let through by the guard [elapsed_time > TOTAL_DURATION]. *)
Theorem clock_and_history_are_bounded
  (np_sqrt : Q -> Q) (n : nat) (w : World) :
  fresh w ->
  elapsed_time (state (self (after_calls np_sqrt n w)))
    == inject_Z (Z.of_nat (Nat.min n 901)) * TIME_STEP
  /\ length (price_history (state (self (after_calls np_sqrt n w))))
     = Nat.min n 901
  /\ elapsed_time (state (self (after_calls np_sqrt n w)))
     <= TOTAL_DURATION + TIME_STEP.
Proof.
  intros Hf. destruct (after_calls_fresh np_sqrt n w Hf) as [Ht Hl].
  split; [exact Ht |]. split; [exact Hl |].
  rewrite Ht.
  pose proof (steps_time_mono (Nat.min n 901) 901 (Nat.le_min_r _ _)) as Hm.
  assert (H901 : steps_time 901 == 1802 # 10) by (vm_compute; reflexivity).
  unfold TOTAL_DURATION, TIME_STEP. lra.
Qed.

Lemma clock_and_history_are_bounded_witness :
  length (price_history (state (self (after_calls sqrt6 3 sample_world))))
  = 3%nat.
Proof.
  apply (clock_and_history_are_bounded sqrt6 3 sample_world).
  reflexivity.
Defined.

(** X17.  [reset] makes a simulator usable again, whatever state it was
    in (completed or not): the next [run_step] returns, its point is
    stamped 0.2 and is the only entry of the history, and the parameters
    are those from before the reset. *)
Theorem reset_then_run_step (np_sqrt : Q -> Q) (w : World) :
  exists pt w',
    run_step np_sqrt (snd (reset w)) = (Return pt, w')
    /\ timestamp pt == TIME_STEP
    /\ price_history (state (self w')) = [pt]
    /\ parameters (self w') = parameters (self w).
Proof.
  destruct (run_step_cases np_sqrt (snd (reset w)))
    as [[Hgt _] | [_ (pt & w' & Hr & Hp)]].
  - cbn in Hgt. unfold TOTAL_DURATION in Hgt. lra.
  - exists pt, w'. split; [exact Hr |].
    split; [| split].
    + rewrite (sp_timestamp _ _ _ Hp), (sp_elapsed _ _ _ Hp). cbn. ring.
    + rewrite (sp_history _ _ _ Hp). reflexivity.
    + rewrite (sp_parameters _ _ _ Hp). reflexivity.
Qed.


(** ** The UI's progress bar *)

Lemma progress_cases (e : Q) :
  (e < 180 -> progress e == e / 180)
  /\ (180 <= e -> progress e == 1).
Proof.
  unfold progress, py_min.
  assert (Hd : e / 180 == e * (1 # 180)) by (unfold Qdiv; reflexivity).
  split; intros H.
  - destruct (Qltb 1 (e / 180)) eqn:E; [| reflexivity].
    apply Qltb_lt in E. rewrite Hd in E. lra.
  - destruct (Qltb 1 (e / 180)) eqn:E; [reflexivity |].
    apply Qltb_ge in E. rewrite Hd in E. lra.
Qed.



(** ** When the regime is redrawn *)

Lemma switch_step_arith (K : Z) :
  (0 <= K)%Z ->
  ((K + 1 = 150 * (K / 150 + 1) /\ (K + 1) / 150 = K / 150 + 1)
   \/ (K + 1 < 150 * (K / 150 + 1) /\ (K + 1) / 150 = K / 150))%Z.
Proof.
  intros H. Z.to_euclidean_division_equations. lia.
Qed.

Lemma update_switch_time
  (k : nat) (sch : RegimeScheduler) (t : Q) (r : RandomState) :
  last_switch_time sch == switch_time k ->
  t == steps_time (S k) ->
  last_switch_time (snd (fst (update sch t r))) == switch_time (S k).
Proof.
  intros Hl Ht. unfold switch_time, steps_time in *.
  rewrite Nat2Z.inj_succ in *. unfold Z.succ in *.
  set (K := Z.of_nat k) in *.
  assert (HK : (0 <= K)%Z) by (subst K; lia).
  rewrite inject_Z_mult in Hl. rewrite inject_Z_plus in Ht.
  assert (Hq : (150 * (K / 150) <= K)%Z)
    by (Z.to_euclidean_division_equations; lia).
  rewrite Zle_Qle in Hq. rewrite inject_Z_mult in Hq.
  unfold update.
  destruct (switch_step_arith K HK) as [[He Hd] | [Hlt Hd]]; rewrite Hd.
  - assert (HeQ : inject_Z (K + 1) == inject_Z (150 * (K / 150 + 1)))
      by (rewrite He; reflexivity).
    rewrite inject_Z_plus, inject_Z_mult, inject_Z_plus in HeQ.
    rewrite inject_Z_mult, inject_Z_plus.
    assert (Hg : Qgeb (t - last_switch_time sch) REGIME_SWITCH_INTERVAL = true).
    { apply Qgeb_ge. unfold REGIME_SWITCH_INTERVAL, TIME_STEP in *.
      rewrite Ht, Hl.
      change (inject_Z 150) with 150 in *. change (inject_Z 30) with 30 in *.
      change (inject_Z 1) with 1 in *. lra. }
    rewrite Hg. destruct (_select_random_regime r) as [rg r'].
    cbn [fst snd last_switch_time].
    rewrite Ht. unfold TIME_STEP.
    change (inject_Z 150) with 150 in *. change (inject_Z 30) with 30 in *.
    change (inject_Z 1) with 1 in *. lra.
  - rewrite Zlt_Qlt in Hlt.
    rewrite inject_Z_plus, inject_Z_mult, inject_Z_plus in Hlt.
    assert (Hg : Qgeb (t - last_switch_time sch) REGIME_SWITCH_INTERVAL = false).
    { apply Qgeb_lt. unfold REGIME_SWITCH_INTERVAL, TIME_STEP in *.
      rewrite Ht, Hl.
      change (inject_Z 150) with 150 in *. change (inject_Z 30) with 30 in *.
      change (inject_Z 1) with 1 in *. lra. }
    rewrite Hg. cbn [fst snd]. rewrite Hl, inject_Z_mult. reflexivity.
Qed.

Lemma run_steps_switch_time (np_sqrt : Q -> Q) (n : nat) :
  forall (k : nat) (w : World) (pts : list PricePoint) (w' : World),
    elapsed_time (state (self w)) == steps_time k ->
    last_switch_time (regime_scheduler (self w)) == switch_time k ->
    run_steps np_sqrt n w = (Return pts, w') ->
    last_switch_time (regime_scheduler (self w')) == switch_time (k + n).
Proof.
  induction n as [| n IH]; intros k w pts w' He Hl H.
  - cbn in H. inversion H; subst. now rewrite Nat.add_0_r.
  - cbn [run_steps] in H. unfold bind at 1 in H.
    destruct (run_step np_sqrt w) as [[pt | e] w1] eqn:Hs; [| discriminate].
    unfold bind at 1 in H.
    destruct (run_steps np_sqrt n w1) as [[pts1 | e] w2] eqn:Hr; [| discriminate].
    unfold ret in H. inversion H; subst. clear H.
    apply run_step_return_inv in Hs. destruct Hs as [_ Hp].
    replace (k + S n)%nat with (S k + n)%nat by lia.
    apply (IH (S k) w1 pts1 w'); [| | exact Hr].
    + rewrite (sp_elapsed _ _ _ Hp), He, steps_time_succ. reflexivity.
    + pose proof (sp_update _ _ _ Hp) as Hu.
      assert (Hs1 : regime_scheduler (self w1)
                    = snd (fst (update (regime_scheduler (self w))
                                  (elapsed_time (state (self w)) + TIME_STEP)
                                  (np_random w)))).
      { destruct (update _ _ _) as [[a b] c]. cbn in *. congruence. }
      rewrite Hs1. apply update_switch_time; [exact Hl |].
      rewrite He, steps_time_succ. reflexivity.
Qed.



(** ** The UI's stepping loop *)

Lemma simulation_loop_idle (np_sqrt : Q -> Q) (w : World) :
  simulation_loop np_sqrt false w = (Return false, w).
Proof. reflexivity. Qed.

Lemma reruns_idle (np_sqrt : Q -> Q) (n : nat) (w : World) :
  reruns np_sqrt n false w = (Return false, w).
Proof.
  induction n as [| n IH]; [reflexivity |].
  cbn [reruns]. unfold bind. rewrite simulation_loop_idle. exact IH.
Qed.

Lemma simulation_loop_steps (np_sqrt : Q -> Q) (w : World) :
  elapsed_time (state (self w)) < 180 ->
  exists pt w',
    run_step np_sqrt w = (Return pt, w')
    /\ simulation_loop np_sqrt true w = (Return true, w').
Proof.
  intros Hlt.
  destruct (run_step_cases np_sqrt w) as [[Hgt _] | [_ (pt & w' & Hr & _)]].
  - unfold TOTAL_DURATION in Hgt. lra.
  - exists pt, w'. split; [exact Hr |].
    unfold simulation_loop, get_current_state, bind, get_state, ret.
    apply Qltb_lt in Hlt. rewrite Hlt, Hr. reflexivity.
Qed.

Lemma simulation_loop_stops (np_sqrt : Q -> Q) (w : World) :
  180 <= elapsed_time (state (self w)) ->
  simulation_loop np_sqrt true w = (Return false, w).
Proof.
  intros Hge.
  unfold simulation_loop, get_current_state, bind, get_state, ret.
  apply Qltb_ge in Hge. rewrite Hge. reflexivity.
Qed.

Lemma reruns_running (np_sqrt : Q -> Q) (n : nat) :
  forall (k : nat) (w : World),
    elapsed_time (state (self w)) == steps_time k ->
    (k + n <= 900)%nat ->
    exists pts w',
      run_steps np_sqrt n w = (Return pts, w')
      /\ reruns np_sqrt n true w = (Return true, w').
Proof.
  induction n as [| n IH]; intros k w He Hk.
  - exists [], w. split; reflexivity.
  - destruct (simulation_loop_steps np_sqrt w) as (pt & w1 & Hs & Hl).
    { rewrite He.
      pose proof (steps_time_mono k 899) as Hm.
      assert (H899 : steps_time 899 == 1798 # 10) by (vm_compute; reflexivity).
      assert (steps_time k <= steps_time 899) by (apply Hm; lia). lra. }
    destruct (IH (S k) w1) as (pts & w' & Hr & Hu); [| lia |].
    { apply run_step_return_inv in Hs. destruct Hs as [_ Hp].
      rewrite (sp_elapsed _ _ _ Hp), He, steps_time_succ. reflexivity. }
    exists (pt :: pts), w'. split.
    + cbn [run_steps]. unfold bind. rewrite Hs, Hr. reflexivity.
    + cbn [reruns]. unfold bind. rewrite Hl. exact Hu.
Qed.

Lemma reruns_add (np_sqrt : Q -> Q) (n m : nat) :
  forall (b : bool) (w : World) (b1 : bool) (w1 : World),
    reruns np_sqrt n b w = (Return b1, w1) ->
    reruns np_sqrt (n + m) b w = reruns np_sqrt m b1 w1.
Proof.
  induction n as [| n IH]; intros b w b1 w1 H.
  - cbn in H. inversion H; subst. reflexivity.
  - cbn [reruns Nat.add] in *. unfold bind in *.
    destruct (simulation_loop np_sqrt b w) as [[b2 | e] w2]; [| discriminate].
    exact (IH b2 w2 b1 w1 H).
Qed.



Lemma sample_jump_never_jumps_at_zero_frequency_witness :
  fst (_sample_jump 15
         (PriceSimulator_init (SimulationParameters_init 15 (5 # 100) 0)
            (seeded flag_only_tape)))
  = Return (false, 0).
Proof.
  rewrite (sample_jump_never_jumps_at_zero_frequency 15
             (PriceSimulator_init (SimulationParameters_init 15 (5 # 100) 0)
                (seeded flag_only_tape))).
  - reflexivity.
  - vm_compute. reflexivity.
  - intros i. do 4 (destruct i as [| i]; [cbn; lra |]).
    destruct i; cbn; lra.
Defined.

(** ** The clamp bounds are reached *)

Lemma np_clip_below (x lo hi : Q) :
  lo <= hi -> x <= lo -> np_clip x lo hi == lo.
Proof.
  intros H Hx. unfold np_clip, np_minimum, np_maximum.
  destruct (Qltb x lo) eqn:E1.
  - destruct (Qltb hi lo) eqn:E2; [| reflexivity].
    apply Qltb_lt in E2. lra.
  - apply Qltb_ge in E1.
    destruct (Qltb hi x) eqn:E2.
    + apply Qltb_lt in E2. lra.
    + lra.
Qed.

Lemma np_clip_above (x lo hi : Q) :
  lo <= hi -> hi <= x -> np_clip x lo hi == hi.
Proof.
  intros H Hx. unfold np_clip, np_minimum, np_maximum.
  destruct (Qltb x lo) eqn:E1.
  - apply Qltb_lt in E1.
    destruct (Qltb hi lo) eqn:E2; [reflexivity |].
    apply Qltb_ge in E2. lra.
  - destruct (Qltb hi x) eqn:E2; [reflexivity |].
    apply Qltb_ge in E2. lra.
Qed.

Lemma constant_tape_in_range (g : Q) :
  uniforms_in_range (constant_tape (mkVariate 0 g 0)).
Proof.
  intros i. cbn. lra.
Qed.

(** The preview on a tape whose every gaussian variate is [g] and every
    uniform variate is 0. *)
Lemma generate_next_price_constant_tape
  (np_sqrt : Q -> Q) (dt g : Q) (s : PriceSimulator) :
  exists x w' m,
    generate_next_price np_sqrt dt
      {| self := s; np_random := constant_tape (mkVariate 0 g 0) |}
    = (Return x, w')
    /\ x = np_clip
             (current_price (state s)
              + (LONG_TERM_MEAN - current_price (state s))
                * mean_reversion_strength (parameters s) * dt
              + (0 + max_volatility (parameters s)
                     * volatility_multiplier (REGIME_CONFIGS (regime (state s)))
                     * np_sqrt dt * g)
              + m)
             PRICE_MIN PRICE_MAX
    /\ (m = 0
        \/ m = 0 + (1 # 2)
                   * (max_volatility (parameters s)
                      * volatility_multiplier
                          (REGIME_CONFIGS (regime (state s))))
                   * g).
Proof.
  unfold generate_next_price, _sample_normal_noise, _sample_jump,
    bind, get_state, get_parameters, call_random, ret,
    np_random_random, np_random_normal, draw, constant_tape.
  cbn [self state parameters np_random tape pos uniform gauss fst snd].
  match goal with |- context [if ?c then _ else _] => destruct c end;
    cbn [self state parameters np_random tape pos uniform gauss fst snd];
    do 3 eexists; (split; [reflexivity |]); split;
    [reflexivity | right; reflexivity | reflexivity | left; reflexivity].
Qed.



(** ** The regime of the first interval *)

Lemma run_step_keeps_regime_early
  (np_sqrt : Q -> Q) (k : nat) (w : World) (pt : PricePoint) (w' : World) :
  elapsed_time (state (self w)) == steps_time k ->
  last_switch_time (regime_scheduler (self w)) == 0 ->
  (S k < 150)%nat ->
  run_step np_sqrt w = (Return pt, w') ->
  pp_regime pt = current_regime (regime_scheduler (self w))
  /\ regime_scheduler (self w') = regime_scheduler (self w).
Proof.
  intros He Hl Hk Hr.
  apply run_step_return_inv in Hr. destruct Hr as [_ Hp].
  pose proof (sp_update _ _ _ Hp) as Hu.
  unfold update in Hu.
  assert (Hg : Qgeb (elapsed_time (state (self w)) + TIME_STEP
                     - last_switch_time (regime_scheduler (self w)))
                 REGIME_SWITCH_INTERVAL = false).
  { apply Qgeb_lt. rewrite He, Hl.
    pose proof (steps_time_mono (S k) 149) as Hm.
    assert (H149 : steps_time 149 == 298 # 10) by (vm_compute; reflexivity).
    assert (steps_time (S k) <= steps_time 149) by (apply Hm; lia).
    pose proof (steps_time_succ k) as Hsucc.
    unfold REGIME_SWITCH_INTERVAL. lra. }
  rewrite Hg in Hu. cbn in Hu. inversion Hu. split; reflexivity.
Qed.

Lemma run_steps_keep_regime_early (np_sqrt : Q -> Q) (n : nat) :
  forall (k : nat) (w : World) (pts : list PricePoint) (w' : World),
    elapsed_time (state (self w)) == steps_time k ->
    last_switch_time (regime_scheduler (self w)) == 0 ->
    (k + n < 150)%nat ->
    run_steps np_sqrt n w = (Return pts, w') ->
    Forall (fun pt => pp_regime pt = current_regime (regime_scheduler (self w)))
      pts
    /\ regime_scheduler (self w') = regime_scheduler (self w).
Proof.
  induction n as [| n IH]; intros k w pts w' He Hl Hk H.
  - cbn in H. inversion H; subst. split; [constructor | reflexivity].
  - cbn [run_steps] in H. unfold bind at 1 in H.
    destruct (run_step np_sqrt w) as [[pt | e] w1] eqn:Hs; [| discriminate].
    unfold bind at 1 in H.
    destruct (run_steps np_sqrt n w1) as [[pts1 | e] w2] eqn:Hr; [| discriminate].
    unfold ret in H. inversion H; subst. clear H.
    destruct (run_step_keeps_regime_early np_sqrt k w pt w1 He Hl) as [Hrg Hsch];
      [lia | exact Hs |].
    apply run_step_return_inv in Hs. destruct Hs as [_ Hp].
    destruct (IH (S k) w1 pts1 w') as [Hall Hfin]; [| | lia | exact Hr |].
    + rewrite (sp_elapsed _ _ _ Hp), He, steps_time_succ. reflexivity.
    + rewrite Hsch. exact Hl.
    + rewrite Hsch in Hall, Hfin.
      split; [constructor; assumption | exact Hfin].
Qed.

(** X21.  The regime drawn at construction (or at a reset) is the regime
    of every point of the first interval: under exact arithmetic the first
    149 points, those stamped before 30 s, all carry the scheduler's
    initial regime, and the scheduler is untouched until then. *)
Theorem initial_regime_holds_for_first_interval
  (np_sqrt : Q -> Q) (N : nat) (w : World)
  (pts : list PricePoint) (w' : World) :
  fresh w ->
  last_switch_time (regime_scheduler (self w)) = 0 ->
  (N < 150)%nat ->
  run_steps np_sqrt N w = (Return pts, w') ->
  Forall (fun pt => pp_regime pt = current_regime (regime_scheduler (self w)))
    pts
  /\ regime_scheduler (self w') = regime_scheduler (self w).
Proof.
  intros Hf Hl HN Hr.
  apply (run_steps_keep_regime_early np_sqrt N 0 w pts w'); [| | lia | exact Hr].
  - unfold fresh in Hf. rewrite Hf. reflexivity.
  - rewrite Hl. reflexivity.
Qed.

Lemma initial_regime_holds_for_first_interval_witness :
  regime_scheduler (self (snd (run_steps sqrt6 3 sample_world)))
  = regime_scheduler (self sample_world).
Proof.
  apply (initial_regime_holds_for_first_interval sqrt6 3 sample_world
           (returned [] (fst (run_steps sqrt6 3 sample_world)))).
  - reflexivity.
  - reflexivity.
  - lia.
  - vm_compute. reflexivity.
Defined.
